(** * The humidity monitoring loop of main.py, embedded in Rocq

    The MicroPython program polls a remote enable flag, reads a DHT22
    humidity sensor, classifies the reading, drives a character display, asks
    a text service for advice and uploads the reading with a running average.

    The embedding follows main.py function by function.  The program's two
    pieces of mutable state are the global list [humidity_readings] and the
    outside world (console, display, clock, network).  The first is a field
    of [state]; the second is recorded as an ordered trace of [event]s.  What
    the outside world answers (HTTP replies, the sensor, the clock) is read
    from a [world] record, one per loop cycle.  Python exceptions are the
    [Raise] results of a state-and-error monad; the state survives a raise,
    as the global list does in Python.

    The display driver, the console and [utime.sleep] are taken to be total:
    they only extend the trace.  The network and the sensor can fail.

    Numbers: humidity values are floats in the source, and floats here:
    Rocq's primitive binary64 floats, with their comparisons (false on NaN),
    their rounded addition and their rounded division.  A literal such as
    61.7 stands for the nearest float, as it does in Python.  Binary64 is
    the float of a double-precision build of the interpreter; a build with
    single precision rounds at other values, which moves the examples of
    rounding below but none of the statements made for every float.
    Rendering of a float as text ([str] and the [.2f] format) is a built-in
    that is not part of main.py and is taken as a parameter. *)

From Stdlib Require Import List String Ascii Bool Arith ZArith QArith Lia.
From Stdlib Require Import Floats Uint63.
Import ListNotations.

Local Open Scope string_scope.
Set Warnings "-register-all,-inexact-float".

(** ** Python values and exceptions *)

(** What [response.json()] can produce, and what [ujson.dumps] is given. A
    number is a float. An object keeps its keys in an association list;
    [py_get] takes the first binding of a key. *)
Inductive json : Type :=
| JNull
| JBool (b : bool)
| JNum (x : float)
| JStr (s : string)
| JArr (items : list json)
| JObj (fields : list (string * json)).

Inductive exn_class : Type :=
| KeyError | IndexError | AttributeError | TypeError | ValueError
| NameError | OSError.

(** An exception object: its class and the text [str(e)] gives. *)
Record exn : Type := Exn { exn_kind : exn_class; exn_str : string }.

Inductive result (A : Type) : Type :=
| Ok (a : A)
| Raise (e : exn).
Arguments Ok {A} a.
Arguments Raise {A} e.

Definition is_raise {A} (r : result A) : bool :=
  match r with Ok _ => false | Raise _ => true end.

(** ** The outside world *)

(** Outcome of [urequests.get] / [urequests.post]: the transport raises, or a
    response object comes back whose body parses ([Some]) or does not
    ([None], [response.json()] then raises [ValueError]). *)
Inductive reply : Type :=
| TransportError (e : exn)
| Responded (body : option json).

(** Outcome of [dht_sensor.measure()] followed by [dht_sensor.humidity()]. *)
Inductive sensor_outcome : Type :=
| MeasureRaises (e : exn)
| Measured (humidity : option float).

(** The first six fields of [utime.localtime()]; the other two are unused. *)
Record time_tuple : Type := TimeTuple {
  year : nat; month : nat; mday : nat;
  hour : nat; minute : nat; second : nat }.

Record world : Type := World {
  http_get : string -> reply;
  http_post : string -> json -> reply;
  dht : sensor_outcome;
  localtime : time_tuple }.

(** Everything the program does to the outside world, in order. *)
Inductive event : Type :=
| Print (line : string)
| LcdClear
| LcdPutstr (message : string)
| Sleep (seconds : nat)
| WlanActive
| WlanConnect (ssid password : string)
| HttpGet (url : string)
| HttpPost (url : string) (data : json) (headers : list (string * string))
| ResponseJson
| ResponseClose
| DhtMeasure.

Record state : Type := State {
  humidity_readings : list float;
  output : list event }.

Definition initial_state : state := State [] [].

(** ** The monad: reader of the world, state, exceptions *)

Definition M (A : Type) : Type := world -> state -> result A * state.

Definition ret {A} (a : A) : M A := fun _ s => (Ok a, s).

Definition bind {A B} (m : M A) (k : A -> M B) : M B :=
  fun w s =>
    match m w s with
    | (Ok a, s') => k a w s'
    | (Raise e, s') => (Raise e, s')
    end.

Definition raise {A} (e : exn) : M A := fun _ s => (Raise e, s).

(** [try: body / except Exception as e: handler e]. *)
Definition try_except {A} (body : M A) (handler : exn -> M A) : M A :=
  fun w s =>
    match body w s with
    | (Ok a, s') => (Ok a, s')
    | (Raise e, s') => handler e w s'
    end.

Definition ask : M world := fun w s => (Ok w, s).

Definition emit (e : event) : M unit :=
  fun _ s => (Ok tt, State (humidity_readings s) (output s ++ [e])).

Definition lift {A} (r : result A) : M A := fun _ s => (r, s).

Declare Scope monad_scope.
Delimit Scope monad_scope with monad.
Notation "x <- m ;; k" := (bind m (fun x => k))
  (at level 61, m at next level, right associativity) : monad_scope.
Notation "m ;; k" := (bind m (fun _ => k))
  (at level 61, right associativity) : monad_scope.
Local Open Scope monad_scope.

(** ** Python built-ins used by main.py *)

(** Truth value of an object, as [if x:] and [x or y] test it. *)
Definition truthy (j : json) : bool :=
  match j with
  | JNull => false
  | JBool b => b
  | JNum x => negb (x =? 0)%float
  | JStr s => negb (String.eqb s "")
  | JArr l => match l with [] => false | _ => true end
  | JObj f => match f with [] => false | _ => true end
  end.

Definition py_or (a b : json) : json := if truthy a then a else b.

Fixpoint assoc (key : string) (f : list (string * json)) : option json :=
  match f with
  | [] => None
  | (k, v) :: f' => if String.eqb k key then Some v else assoc key f'
  end.

(** [d.get(key, default)]: only a dict has the method. *)
Definition py_get (d : json) (key : string) (default : json) : result json :=
  match d with
  | JObj f => Ok (match assoc key f with Some v => v | None => default end)
  | _ => Raise (Exn AttributeError "object has no attribute 'get'")
  end.

(** [x[0]]. A dict coming from JSON has string keys only, so the integer key
    0 is never present. *)
Definition py_item0 (x : json) : result json :=
  match x with
  | JArr (a :: _) => Ok a
  | JArr [] => Raise (Exn IndexError "list index out of range")
  | JObj _ => Raise (Exn KeyError "0")
  | JStr (String c _) => Ok (JStr (String c EmptyString))
  | JStr EmptyString => Raise (Exn IndexError "str index out of range")
  | _ => Raise (Exn TypeError "object isn't subscriptable")
  end.

(** [x == 'ON'] and the like: only a string can be equal to a string. *)
Definition py_eq_str (x : json) (s : string) : bool :=
  match x with
  | JStr t => String.eqb t s
  | _ => false
  end.

Definition is_space (c : ascii) : bool :=
  let n := nat_of_ascii c in
  (n =? 32)%nat || ((9 <=? n)%nat && (n <=? 13)%nat).

(** [s.split()] with no separator: maximal runs of non-space characters.
    [word] is the run being read, if any. *)
Fixpoint split_from (s : string) (word : option string) : list string :=
  match s with
  | EmptyString => match word with Some w => [w] | None => [] end
  | String c s' =>
      if is_space c then
        match word with
        | Some w => w :: split_from s' None
        | None => split_from s' None
        end
      else
        split_from s' (Some (match word with
                             | Some w => w ++ String c EmptyString
                             | None => String c EmptyString
                             end))
  end.

Definition str_split (s : string) : list string := split_from s None.

Definition py_split (x : json) : result (list string) :=
  match x with
  | JStr s => Ok (str_split s)
  | _ => Raise (Exn AttributeError "object has no attribute 'split'")
  end.

Definition upper_char (c : ascii) : ascii :=
  let n := nat_of_ascii c in
  if ((97 <=? n)%nat && (n <=? 122)%nat) then ascii_of_nat (n - 32) else c.

Fixpoint str_upper (s : string) : string :=
  match s with
  | EmptyString => EmptyString
  | String c s' => String (upper_char c) (str_upper s')
  end.

Definition digit_char (d : nat) : ascii := ascii_of_nat (48 + d).

(** Decimal digits of [n], most significant first, in front of [acc]. *)
Fixpoint dec_digits (fuel n : nat) (acc : string) : string :=
  match fuel with
  | O => acc
  | S fuel' =>
      let acc' := String (digit_char (n mod 10)) acc in
      if (n / 10 =? 0)%nat then acc' else dec_digits fuel' (n / 10) acc'
  end.

Definition str_of_nat (n : nat) : string := dec_digits (S n) n "".

Fixpoint zeros (k : nat) : string :=
  match k with
  | O => ""
  | S k' => String "0" (zeros k')
  end.

(** ["{:0Wd}".format(n)] for a non-negative [n]: zero-padded on the left to
    width [W], never truncated. *)
Definition format_0d (width n : nat) : string :=
  let s := str_of_nat n in
  zeros (width - String.length s) ++ s.

(** [sum(l)]: a left fold of float additions from 0, each of them rounded. *)
Definition py_sum (l : list float) : float := fold_left PrimFloat.add l 0%float.

(** [len(l)] as the float the division converts it to. *)
Definition py_len (l : list float) : float :=
  PrimFloat.of_uint63 (Uint63.of_Z (Z.of_nat (List.length l))).

(** ** Configuration *)

Record config : Type := Config {
  WIFI_SSID : string;
  WIFI_PASSWORD : string;
  SENSOR_STATUS_ENDPOINT : string;
  DATA_INSERT_ENDPOINT : string;
  GEMINI_API_KEY : string;
  GEMINI_ENDPOINT : string;
  IDEAL_HUMIDITY_LOW : float;
  IDEAL_HUMIDITY_HIGH : float }.

(** The dictionary of main.py, without the pin and display geometry entries,
    which only the drivers read. *)
Definition source_config : config := {|
  WIFI_SSID := "Wokwi-GUEST";
  WIFI_PASSWORD := "";
  SENSOR_STATUS_ENDPOINT :=
    "https://apex.oracle.com/pls/apex/leds/sensor_status/status?id=1";
  DATA_INSERT_ENDPOINT :=
    "https://apex.oracle.com/pls/apex/leds/sensor_status/data";
  GEMINI_API_KEY := "";
  GEMINI_ENDPOINT :=
    "https://generativelanguage.googleapis.com/v1beta/models/gemini-1.5-flash:generateContent";
  IDEAL_HUMIDITY_LOW := 60;
  IDEAL_HUMIDITY_HIGH := 75 |}.

Definition newline : string := String (ascii_of_nat 10) EmptyString.

(** ** The program *)

Section Program.

(** The configuration in force; main.py runs with [source_config]. *)
Variable CONFIG : config.

(** [str(x)] and [format(x, ".2f")] of a float. *)
Variable str_float : float -> string.
Variable format_2f : float -> string.

Definition sleep (seconds : nat) : M unit := emit (Sleep seconds).

Definition print (line : string) : M unit := emit (Print line).

Definition log (message level : string) : M unit :=
  print ("[" ++ str_upper level ++ "] " ++ message).

Definition update_lcd (message : string) (delay : nat) : M unit :=
  emit LcdClear ;;
  emit (LcdPutstr message) ;;
  sleep delay.

(** [link k] is what the [k]-th call of [wlan.isconnected()] answers. *)
Fixpoint wait_for_link (link : nat -> bool) (ip : string) (k attempts : nat)
  : M bool :=
  match attempts with
  | O => print "WiFi Connect Failed" ;; ret false
  | S attempts' =>
      if link k then
        print "WiFi Connected!" ;;
        print ("IP Address: " ++ ip) ;;
        ret true
      else
        sleep 1 ;;
        wait_for_link link ip (S k) attempts'
  end.

Definition connect_wifi (link : nat -> bool) (ip : string)
  (ssid password : string) : M bool :=
  emit WlanActive ;;
  if negb (link 0%nat) then
    print "Connecting to WiFi..." ;;
    emit (WlanConnect ssid password) ;;
    wait_for_link link ip 1 10
  else
    print "Already connected." ;;
    ret true.

(** [response.json()] on the response object of a reply. *)
Definition response_json (body : option json) : M json :=
  emit ResponseJson ;;
  match body with
  | Some j => ret j
  | None => raise (Exn ValueError "syntax error in JSON")
  end.

Definition urequests_get (url : string) : M (option json) :=
  w <- ask ;;
  emit (HttpGet url) ;;
  match http_get w url with
  | TransportError e => raise e
  | Responded body => ret body
  end.

Definition urequests_post (url : string) (data : json)
  (headers : list (string * string)) : M (option json) :=
  w <- ask ;;
  emit (HttpPost url data headers) ;;
  match http_post w url data with
  | TransportError e => raise e
  | Responded body => ret body
  end.

Definition json_headers : list (string * string) :=
  [("Content-Type", "application/json")].

(** The body of a POST is [ujson.dumps(params)]; the trace keeps [params].
    With a [method] that is neither 'get' nor 'post' the name [response] is
    unbound when it is read. *)
Definition request_endpoint (url : string) (params : json) (method : string)
  : M json :=
  try_except
    (if String.eqb method "get" then
       response <- urequests_get url ;;
       data <- response_json response ;;
       emit ResponseClose ;;
       ret data
     else if String.eqb method "post" then
       urequests_post url params json_headers ;;
       ret JNull
     else
       raise (Exn NameError "local variable referenced before assignment"))
    (fun e =>
       log ("Failed to reach endpoint " ++ url ++ ": " ++ exn_str e) "error" ;;
       ret JNull).

Definition check_sensor_status : M bool :=
  r <- request_endpoint (SENSOR_STATUS_ENDPOINT CONFIG) JNull "get" ;;
  let data := py_or r (JObj []) in
  items <- lift (py_get data "items" (JObj [])) ;;
  first <- lift (py_item0 items) ;;
  status <- lift (py_get first "status" (JStr "OFF")) ;;
  ret (py_eq_str status "ON").

Definition calculate_humidity_status (humidity : float) : string :=
  if (humidity <? IDEAL_HUMIDITY_LOW CONFIG)%float then "Too Dry!"
  else if (IDEAL_HUMIDITY_HIGH CONFIG <? humidity)%float then "Too Humid!"
  else "Optimal".

Definition current_time (t : time_tuple) : string :=
  format_0d 4 (year t) ++ "-" ++ format_0d 2 (month t) ++ "-" ++
  format_0d 2 (mday t) ++ " " ++ format_0d 2 (hour t) ++ ":" ++
  format_0d 2 (minute t) ++ ":" ++ format_0d 2 (second t).

(** The dictionary [params] of [store_humidity_data]. *)
Definition store_params (humidity : float) (t : time_tuple) (avg_humidity : float)
  : json :=
  JObj [("humidity", JNum humidity);
        ("datetime", JStr (current_time t));
        ("avg_humidity", JNum avg_humidity)].

Definition store_humidity_data (humidity avg_humidity : float) : M unit :=
  w <- ask ;;
  let params := store_params humidity (localtime w) avg_humidity in
  request_endpoint (DATA_INSERT_ENDPOINT CONFIG) params "post" ;;
  ret tt.

(** The pure core of [calculate_average_humidity]. The 0 of the empty
    history is the integer 0 in Python; it is the float 0 here. *)
Definition average (readings : list float) : float :=
  match readings with
  | [] => 0%float
  | _ => (py_sum readings / py_len readings)%float
  end.

Definition calculate_average_humidity : M float :=
  fun _ s => (Ok (average (humidity_readings s)), s).

(** [humidity_readings.append(humidity)]. *)
Definition append_reading (humidity : float) : M unit :=
  fun _ s => (Ok tt, State (humidity_readings s ++ [humidity]) (output s)).

Definition gemini_url : string :=
  GEMINI_ENDPOINT CONFIG ++ "?key=" ++ GEMINI_API_KEY CONFIG.

(** The dictionary [payload] of [request_gemini_response]. *)
Definition gemini_payload (prompt : string) : json :=
  JObj [("contents", JArr [JObj [("parts", JArr [JObj [("text", JStr prompt)]])]])].

Definition request_gemini_response (prompt : string) : M json :=
  let payload := gemini_payload prompt in
  try_except
    (response <- urequests_post gemini_url payload json_headers ;;
     result <- response_json response ;;
     emit ResponseClose ;;
     ret result)
    (fun e =>
       log ("Failed to reach Gemini endpoint: " ++ exn_str e) "error" ;;
       ret JNull).

Definition advice_prompt (humidity : float) (humidity_status : string) : string :=
  "The current humidity level is " ++ str_float humidity ++ "%, status: " ++
  humidity_status ++
  ". What brief advice would you provide for vegetable processing under these conditions?".

Definition generate_vegetable_suggestions (humidity : float)
  (humidity_status : string) : M unit :=
  response <- request_gemini_response (advice_prompt humidity humidity_status) ;;
  if truthy response then
    candidates <- lift (py_get response "candidates" (JArr [JObj []])) ;;
    candidate <- lift (py_item0 candidates) ;;
    content <- lift (py_get candidate "content" (JObj [])) ;;
    generated_text <- lift (py_get content "parts" (JArr [])) ;;
    part <- lift (py_item0 generated_text) ;;
    text <- lift (py_get part "text" (JStr "No advice available.")) ;;
    words <- lift (py_split text) ;;
    let advice_text := String.concat " " (firstn 20 words) ++ "..." in
    update_lcd (humidity_status ++ newline ++ advice_text) 3
  else
    update_lcd "Failed to get advice" 2.

Definition dht_measure : M unit :=
  w <- ask ;;
  emit DhtMeasure ;;
  match dht w with
  | MeasureRaises e => raise e
  | Measured _ => ret tt
  end.

Definition dht_humidity : M (option float) :=
  w <- ask ;;
  match dht w with
  | MeasureRaises e => raise e
  | Measured h => ret h
  end.

Definition process_humidity : M unit :=
  try_except
    (dht_measure ;;
     humidity <- dht_humidity ;;
     match humidity with
     | Some humidity =>
         append_reading humidity ;;
         avg_humidity <- calculate_average_humidity ;;
         let humidity_status := calculate_humidity_status humidity in
         update_lcd ("Humidity: " ++ format_2f humidity ++ "%" ++ newline ++
                     humidity_status) 3 ;;
         generate_vegetable_suggestions humidity humidity_status ;;
         store_humidity_data humidity avg_humidity
     | None => ret tt
     end)
    (fun e =>
       log ("Sensor error: " ++ exn_str e) "error" ;;
       update_lcd "Sensor error" 2).

(** One pass through the body of [while True:]. *)
Definition cycle : M unit :=
  enabled <- check_sensor_status ;;
  (if enabled then process_humidity else update_lcd "Sensor is OFF" 2) ;;
  update_lcd "Sensor working..." 2 ;;
  sleep 2.

(** The loop over the first [length worlds] cycles: each cycle meets its own
    world; an exception that escapes a cycle ends the loop, as it ends
    [main] in Python. The result says whether the loop is still running
    ([Ok]) after these cycles. *)
Fixpoint monitoring_loop (worlds : list world) (s : state)
  : result unit * state :=
  match worlds with
  | [] => (Ok tt, s)
  | w :: worlds' =>
      match cycle w s with
      | (Ok _, s') => monitoring_loop worlds' s'
      | (Raise e, s') => (Raise e, s')
      end
  end.

(** Result of [main]: it returned after the connection failed, or the loop
    ran (and is [Ok] or raised). *)
Inductive main_outcome : Type :=
| Halted
| Looping (r : result unit).

Definition main (link : nat -> bool) (ip : string) (boot : world)
  (worlds : list world) (s : state) : main_outcome * state :=
  match (update_lcd ("Veg Sanitization" ++ newline ++ "Initializing...") 2 ;;
         connect_wifi link ip (WIFI_SSID CONFIG) (WIFI_PASSWORD CONFIG))
          boot s with
  | (Ok true, s1) =>
      let (r, s2) := monitoring_loop worlds s1 in (Looping r, s2)
  | (Ok false, s1) =>
      let (_, s2) :=
        update_lcd ("WiFi Fail!" ++ newline ++ "Check config") 2 boot s1 in
      (Halted, s2)
  | (Raise e, s1) => (Looping (Raise e), s1)
  end.

End Program.

(** ** Vocabulary of the properties *)

(** The textbook mean: the total of the values over their number. *)
Definition arithmetic_mean (values : list Q) : Q :=
  fold_right Qplus 0 values / inject_Z (Z.of_nat (List.length values)).

(** The rational a float stands for; the infinities and NaN stand for
    none. *)
Definition Q_of_SF (f : spec_float) : option Q :=
  match f with
  | S754_zero _ => Some 0%Q
  | S754_finite s m e =>
      Some (inject_Z (if s then Zneg m else Zpos m) * Qpower 2 e)%Q
  | S754_infinity _ | S754_nan => None
  end.

Definition float_value (x : float) : option Q := Q_of_SF (Prim2SF x).

Fixpoint float_values (l : list float) : option (list Q) :=
  match l with
  | [] => Some []
  | x :: l' =>
      match float_value x, float_values l' with
      | Some q, Some qs => Some (q :: qs)
      | _, _ => None
      end
  end.

(** An addition, a division, a conversion of the count that rounding left
    as it is in the rationals. *)
Definition exact_add (x y : float) : bool :=
  match float_value x, float_value y, float_value (x + y)%float with
  | Some a, Some b, Some c => Qeq_bool c (a + b)
  | _, _, _ => false
  end.

Definition exact_div (x y : float) : bool :=
  match float_value x, float_value y, float_value (x / y)%float with
  | Some a, Some b, Some c => Qeq_bool c (a / b)
  | _, _, _ => false
  end.

Definition exact_count (l : list float) : bool :=
  match float_value (py_len l) with
  | Some n => Qeq_bool n (inject_Z (Z.of_nat (List.length l)))
  | None => false
  end.

(** The additions of [sum], started from [acc], are all exact. *)
Fixpoint exact_sum (acc : float) (l : list float) : bool :=
  match l with
  | [] => true
  | x :: l' => exact_add acc x && exact_sum (acc + x)%float l'
  end.

(** No step of the average of [l] rounds. *)
Definition exact_average (l : list float) : bool :=
  exact_sum 0%float l && exact_count l && exact_div (py_sum l) (py_len l).

(** The order of the floats that are not NaN, as an order on triples of
    integers: the sign and the class first, then the exponent, then the
    mantissa, the last two reversed for the negative numbers. *)
Definition float_key (f : spec_float) : Z * Z * Z :=
  match f with
  | S754_zero _ | S754_nan => (0, 0, 0)%Z
  | S754_infinity true => (-2, 0, 0)%Z
  | S754_infinity false => (2, 0, 0)%Z
  | S754_finite true m e => (-1, - e, Zneg m)%Z
  | S754_finite false m e => (1, e, Zpos m)%Z
  end.

Definition lex3 (a b : Z * Z * Z) : comparison :=
  match a, b with
  | (a1, a2, a3), (b1, b2, b3) =>
      match Z.compare a1 b1 with
      | Eq => match Z.compare a2 b2 with
              | Eq => Z.compare a3 b3
              | c => c
              end
      | c => c
      end
  end.

Definition SF_is_nan (f : spec_float) : bool :=
  match f with S754_nan => true | _ => false end.

(** Recording values one after the other. *)
Fixpoint record_all (values : list float) : M unit :=
  match values with
  | [] => ret tt
  | v :: values' => append_reading v ;; record_all values'
  end.

(** A computation that leaves the reading history as it found it, whatever
    its result. *)
Definition keeps_readings {A} (m : M A) : Prop :=
  forall w s, humidity_readings (snd (m w s)) = humidity_readings s.

(** A computation that always returns normally. *)
Definition never_raises {A} (m : M A) : Prop :=
  forall w s, is_raise (fst (m w s)) = false.

(** The steps of [process_humidity] that follow the recording of a reading,
    and its [except] branch. *)
Definition after_reading (CONFIG : config) (str_float format_2f : float -> string)
  (humidity avg_humidity : float) : M unit :=
  let humidity_status := calculate_humidity_status CONFIG humidity in
  update_lcd ("Humidity: " ++ format_2f humidity ++ "%" ++ newline ++
              humidity_status) 3 ;;
  generate_vegetable_suggestions CONFIG str_float humidity humidity_status ;;
  store_humidity_data CONFIG humidity avg_humidity.

Definition sensor_error_handler (e : exn) : M unit :=
  log ("Sensor error: " ++ exn_str e) "error" ;;
  update_lcd "Sensor error" 2.

(** The events of a pass through the idle part of the loop body. *)
Definition idle_events : list event :=
  [LcdClear; LcdPutstr "Sensor working..."; Sleep 2; Sleep 2].

(** The console lines that [log] wrote at level 'error'. *)
Definition is_error_entry (ev : event) : bool :=
  match ev with
  | Print line => String.prefix "[ERROR] " line
  | _ => false
  end.

Definition error_entries (evs : list event) : list event :=
  filter is_error_entry evs.

(** [line] contains [url]. *)
Definition mentions (line url : string) : Prop :=
  exists before after, line = before ++ url ++ after.

(** The ways the [try] block of [request_endpoint] fails on the transport or
    on the body, with the exception it raises. *)
Inductive call_fails (w : world) (url : string) (params : json)
  : string -> exn -> Prop :=
| get_transport_fails e :
    http_get w url = TransportError e -> call_fails w url params "get" e
| get_body_fails :
    http_get w url = Responded None ->
    call_fails w url params "get" (Exn ValueError "syntax error in JSON")
| post_transport_fails e :
    http_post w url params = TransportError e ->
    call_fails w url params "post" e.

Definition is_http_post (ev : event) : bool :=
  match ev with HttpPost _ _ _ => true | _ => false end.

(** The texts written to the display. *)
Fixpoint displayed (evs : list event) : list string :=
  match evs with
  | [] => []
  | LcdPutstr message :: evs' => message :: displayed evs'
  | _ :: evs' => displayed evs'
  end.

(** The POST requests sent to [url], with their payloads. *)
Fixpoint posts_to (url : string) (evs : list event) : list json :=
  match evs with
  | [] => []
  | HttpPost u data _ :: evs' =>
      if String.eqb u url then data :: posts_to url evs' else posts_to url evs'
  | _ :: evs' => posts_to url evs'
  end.






(** The ranges of the fields [utime.localtime()] returns. *)
Definition valid_time (t : time_tuple) : Prop :=
  (year t < 100 * 100 /\ 1 <= month t <= 12 /\ 1 <= mday t <= 31 /\
   hour t < 24 /\ minute t < 60 /\ second t < 60)%nat.

(** A computation that only adds events after those already there. *)
Definition appends_output {A} (m : M A) : Prop :=
  forall w s, exists evs, output (snd (m w s)) = (output s ++ evs)%list.

(** The lengths of the pauses, in seconds. *)
Fixpoint sleeps (evs : list event) : list nat :=
  match evs with
  | [] => []
  | Sleep seconds :: evs' => seconds :: sleeps evs'
  | _ :: evs' => sleeps evs'
  end.

Definition is_request (ev : event) : bool :=
  match ev with
  | HttpGet _ | HttpPost _ _ _ => true
  | _ => false
  end.

Definition is_measure (ev : event) : bool :=
  match ev with DhtMeasure => true | _ => false end.

Definition is_close (ev : event) : bool :=
  match ev with ResponseClose => true | _ => false end.



(** Reading a decimal number back. *)
Definition digit_value (c : ascii) : nat := nat_of_ascii c - 48.

Fixpoint nat_of_digits_from (acc : nat) (s : string) : nat :=
  match s with
  | EmptyString => acc
  | String c s' => nat_of_digits_from (10 * acc + digit_value c) s'
  end.

Definition nat_of_digits (s : string) : nat := nat_of_digits_from 0 s.

(** Reading a timestamp "YYYY-MM-DD HH:MM:SS" back, field by field. *)
Definition parse_time (s : string) : time_tuple := {|
  year := nat_of_digits (substring 0 4 s);
  month := nat_of_digits (substring 5 2 s);
  mday := nat_of_digits (substring 8 2 s);
  hour := nat_of_digits (substring 11 2 s);
  minute := nat_of_digits (substring 14 2 s);
  second := nat_of_digits (substring 17 2 s) |}.

(** The order of the classifier's labels, from dry to humid. *)
Definition label_rank (label : string) : nat :=
  if String.eqb label "Too Dry!" then 0
  else if String.eqb label "Optimal" then 1
  else 2.

(** An answer of the status endpoint that [check_sensor_status] can read:
    an object whose [items] is a list that starts with an object. The flag
    it carries is whether that object's [status] is the string "ON". *)
Definition status_flag (r : json) : option bool :=
  match r with
  | JObj fields =>
      match assoc "items" fields with
      | Some (JArr (JObj first :: _)) =>
          Some (match assoc "status" first with
                | Some status => py_eq_str status "ON"
                | None => false
                end)
      | _ => None
      end
  | _ => None
  end.

(** An answer of the text service in which the first candidate's first
    part is an object, with the text it carries (the default when it has
    none). *)
Definition advice_text (r : json) : option json :=
  match r with
  | JObj fields =>
      match assoc "candidates" fields with
      | Some (JArr (JObj candidate :: _)) =>
          match assoc "content" candidate with
          | Some (JObj content) =>
              match assoc "parts" content with
              | Some (JArr (JObj part :: _)) =>
                  Some (match assoc "text" part with
                        | Some text => text
                        | None => JStr "No advice available."
                        end)
              | _ => None
              end
          | _ => None
          end
      | _ => None
      end
  | _ => None
  end.

(** ** Sample worlds *)

Definition sample_str_float (x : float) : string := "65.0".
Definition sample_format_2f (x : float) : string := "65.00".

Definition timed_out : exn := Exn OSError "ETIMEDOUT".

Definition sample_time : time_tuple := TimeTuple 2024 3 7 9 5 0.

Definition status_on : json :=
  JObj [("items", JArr [JObj [("status", JStr "ON")]])].

Definition status_off : json :=
  JObj [("items", JArr [JObj [("status", JStr "OFF")]])].

(** A reply of the text service in the expected shape. *)
Definition advice_reply : json :=
  JObj [("candidates",
         JArr [JObj [("content",
                      JObj [("parts",
                             JArr [JObj [("text",
                                          JStr "Keep the produce dry and ventilated")]])])]])].

(** What the text service answers to a request it rejects, for instance
    one with the empty API key of [source_config]. *)
Definition error_reply : json :=
  JObj [("error", JObj [("code", JNum 400); ("status", JStr "INVALID_ARGUMENT")])].

(** Enabled, the sensor reads 65, every service answers as expected. *)
Definition healthy_world : world := {|
  http_get := fun _ => Responded (Some status_on);
  http_post := fun url _ =>
    if String.eqb url (gemini_url source_config)
    then Responded (Some advice_reply) else Responded (Some JNull);
  dht := Measured (Some 65%float);
  localtime := sample_time |}.

(** The status endpoint cannot be reached. *)
Definition status_down_world : world := {|
  http_get := fun _ => TransportError timed_out;
  http_post := http_post healthy_world;
  dht := Measured (Some 65%float);
  localtime := sample_time |}.

(** The status endpoint answers an object without [items]. *)
Definition no_items_world : world := {|
  http_get := fun _ => Responded (Some (JObj [("count", JNum 0)]));
  http_post := http_post healthy_world;
  dht := Measured (Some 65%float);
  localtime := sample_time |}.

Definition disabled_world : world := {|
  http_get := fun _ => Responded (Some status_off);
  http_post := http_post healthy_world;
  dht := Measured (Some 65%float);
  localtime := sample_time |}.

(** Enabled, but the sensor hands back no humidity value. *)
Definition null_reading_world : world := {|
  http_get := http_get healthy_world;
  http_post := http_post healthy_world;
  dht := Measured None;
  localtime := sample_time |}.

(** Enabled, the sensor reads 65, the text service answers [error_reply]. *)
Definition advice_rejected_world : world := {|
  http_get := http_get healthy_world;
  http_post := fun _ _ => Responded (Some error_reply);
  dht := Measured (Some 65%float);
  localtime := sample_time |}.

(** An answer of the expected shape whose list of parts is empty. *)
Definition empty_parts_reply : json :=
  JObj [("candidates",
         JArr [JObj [("content", JObj [("parts", JArr [])])]])].

Definition empty_parts_world : world := {|
  http_get := http_get healthy_world;
  http_post := fun _ _ => Responded (Some empty_parts_reply);
  dht := Measured (Some 65%float);
  localtime := sample_time |}.

(** Enabled, but the measurement times out. *)
Definition sensor_down_world : world := {|
  http_get := http_get healthy_world;
  http_post := http_post healthy_world;
  dht := MeasureRaises timed_out;
  localtime := sample_time |}.


(** Enabled, the sensor reads 65, no POST gets through. *)
Definition posts_down_world : world := {|
  http_get := http_get healthy_world;
  http_post := fun _ _ => TransportError timed_out;
  dht := Measured (Some 65%float);
  localtime := sample_time |}.

(** ** Properties *)

Local Open Scope list_scope.

(** *** The monad and the reading history *)

Lemma keeps_ret {A} (a : A) : keeps_readings (ret a).
Proof. intros w s; reflexivity. Qed.

Lemma keeps_raise {A} (e : exn) : keeps_readings (@raise A e).
Proof. intros w s; reflexivity. Qed.

Lemma keeps_ask : keeps_readings ask.
Proof. intros w s; reflexivity. Qed.

Lemma keeps_emit (e : event) : keeps_readings (emit e).
Proof. intros w s; reflexivity. Qed.

Lemma keeps_lift {A} (r : result A) : keeps_readings (lift r).
Proof. intros w s; reflexivity. Qed.

Lemma keeps_bind {A B} (m : M A) (k : A -> M B) :
  keeps_readings m -> (forall a, keeps_readings (k a)) ->
  keeps_readings (bind m k).
Proof.
  intros Hm Hk w s. unfold bind.
  specialize (Hm w s). destruct (m w s) as [[a | e] s1]; simpl in *.
  - rewrite Hk. exact Hm.
  - exact Hm.
Qed.

Lemma keeps_try_except {A} (body : M A) (handler : exn -> M A) :
  keeps_readings body -> (forall e, keeps_readings (handler e)) ->
  keeps_readings (try_except body handler).
Proof.
  intros Hb Hh w s. unfold try_except.
  specialize (Hb w s). destruct (body w s) as [[a | e] s1]; simpl in *.
  - exact Hb.
  - rewrite Hh. exact Hb.
Qed.

Create HintDb readings.
#[local] Hint Resolve keeps_ret keeps_raise keeps_ask keeps_emit keeps_lift
  : readings.

(** Walks through a computation built from the monad's operations. *)
Ltac keeps_step :=
  match goal with
  | |- keeps_readings (bind _ _) => apply keeps_bind; [ | intro ]
  | |- keeps_readings (try_except _ _) => apply keeps_try_except; [ | intro ]
  | |- keeps_readings (if ?b then _ else _) => destruct b
  | |- keeps_readings (match ?x with _ => _ end) => destruct x
  | |- keeps_readings _ => solve [ auto with readings ]
  end.

Ltac keeps := repeat keeps_step.

(** Unfolds the monad and the small wrappers around [emit]. *)
Ltac run :=
  cbv [try_except bind ret raise ask emit lift sleep print log update_lcd
       dht_measure dht_humidity urequests_get urequests_post response_json
       truthy py_or py_get py_item0 py_eq_str py_split assoc
       humidity_readings output String.eqb Ascii.eqb Bool.eqb negb].

Lemma never_raises_ret {A} (a : A) : never_raises (ret a).
Proof. intros w s; reflexivity. Qed.

Lemma never_raises_emit (e : event) : never_raises (emit e).
Proof. intros w s; reflexivity. Qed.

Lemma never_raises_bind {A B} (m : M A) (k : A -> M B) :
  never_raises m -> (forall a, never_raises (k a)) -> never_raises (bind m k).
Proof.
  intros Hm Hk w s. unfold bind.
  specialize (Hm w s). destruct (m w s) as [[a | e] s1]; simpl in *.
  - apply Hk.
  - discriminate.
Qed.

Lemma never_raises_try_except {A} (body : M A) (handler : exn -> M A) :
  (forall e, never_raises (handler e)) -> never_raises (try_except body handler).
Proof.
  intros Hh w s. unfold try_except.
  destruct (body w s) as [[a | e] s1]; simpl.
  - reflexivity.
  - apply Hh.
Qed.

Section Properties.

Variable CONFIG : config.
Variables str_float format_2f : float -> string.

Lemma keeps_update_lcd message delay : keeps_readings (update_lcd message delay).
Proof. unfold update_lcd, sleep. keeps. Qed.

Lemma never_raises_update_lcd message delay :
  never_raises (update_lcd message delay).
Proof.
  unfold update_lcd, sleep.
  repeat (apply never_raises_bind; [ | intro ]); apply never_raises_emit.
Qed.

Lemma keeps_log message level : keeps_readings (log message level).
Proof. unfold log, print. keeps. Qed.

Lemma never_raises_log message level : never_raises (log message level).
Proof. unfold log, print. apply never_raises_emit. Qed.

Lemma keeps_request_endpoint url params method :
  keeps_readings (request_endpoint url params method).
Proof.
  unfold request_endpoint, urequests_get, urequests_post, response_json.
  keeps; apply keeps_log.
Qed.

Lemma never_raises_request_endpoint url params method :
  never_raises (request_endpoint url params method).
Proof.
  unfold request_endpoint. apply never_raises_try_except. intro e.
  apply never_raises_bind; [ apply never_raises_log | intro; apply never_raises_ret ].
Qed.

Lemma keeps_check_sensor_status : keeps_readings (check_sensor_status CONFIG).
Proof.
  unfold check_sensor_status.
  apply keeps_bind; [ apply keeps_request_endpoint | intro ]. keeps.
Qed.

Lemma keeps_store_humidity_data humidity avg :
  keeps_readings (store_humidity_data CONFIG humidity avg).
Proof.
  unfold store_humidity_data.
  apply keeps_bind; [ apply keeps_ask | intro ].
  apply keeps_bind; [ apply keeps_request_endpoint | intro ]. keeps.
Qed.

Lemma never_raises_store_humidity_data humidity avg :
  never_raises (store_humidity_data CONFIG humidity avg).
Proof.
  unfold store_humidity_data.
  apply never_raises_bind; [ intros w s; reflexivity | intro ].
  apply never_raises_bind; [ apply never_raises_request_endpoint | intro ].
  apply never_raises_ret.
Qed.

Lemma keeps_calculate_average_humidity : keeps_readings calculate_average_humidity.
Proof. intros w s; reflexivity. Qed.

Lemma keeps_request_gemini_response prompt :
  keeps_readings (request_gemini_response CONFIG prompt).
Proof.
  unfold request_gemini_response, urequests_post, response_json.
  keeps; apply keeps_log.
Qed.

Lemma keeps_generate_vegetable_suggestions humidity status :
  keeps_readings (generate_vegetable_suggestions CONFIG str_float humidity status).
Proof.
  unfold generate_vegetable_suggestions.
  apply keeps_bind; [ apply keeps_request_gemini_response | intro response ].
  destruct (truthy response); [ | apply keeps_update_lcd ].
  repeat (apply keeps_bind; [ apply keeps_lift | intro ]).
  apply keeps_update_lcd.
Qed.

Lemma never_raises_sensor_error_handler e : never_raises (sensor_error_handler e).
Proof.
  unfold sensor_error_handler.
  apply never_raises_bind; [ apply never_raises_log | intro ].
  apply never_raises_update_lcd.
Qed.

Lemma keeps_sensor_error_handler e : keeps_readings (sensor_error_handler e).
Proof.
  unfold sensor_error_handler.
  apply keeps_bind; [ apply keeps_log | intro ]. apply keeps_update_lcd.
Qed.

Lemma keeps_after_reading humidity avg :
  keeps_readings (after_reading CONFIG str_float format_2f humidity avg).
Proof.
  unfold after_reading.
  apply keeps_bind; [ apply keeps_update_lcd | intro ].
  apply keeps_bind; [ apply keeps_generate_vegetable_suggestions | intro ].
  apply keeps_store_humidity_data.
Qed.

(** [process_humidity] on a reading: the value is recorded, the average is
    taken over the extended history, and the rest runs under the handler. *)
Lemma process_humidity_reading w s v :
  dht w = Measured (Some v) ->
  process_humidity CONFIG str_float format_2f w s =
  try_except
    (after_reading CONFIG str_float format_2f v
       (average (humidity_readings s ++ [v])))
    sensor_error_handler w
    (State (humidity_readings s ++ [v]) (output s ++ [DhtMeasure])).
Proof.
  intro H.
  unfold process_humidity. run. rewrite H. reflexivity.
Qed.

Lemma process_humidity_null w s :
  dht w = Measured None ->
  process_humidity CONFIG str_float format_2f w s =
  (Ok tt, State (humidity_readings s) (output s ++ [DhtMeasure])).
Proof.
  intro H.
  unfold process_humidity. run. rewrite H. reflexivity.
Qed.

Lemma process_humidity_measure_raises w s e :
  dht w = MeasureRaises e ->
  process_humidity CONFIG str_float format_2f w s =
  (Ok tt,
   State (humidity_readings s)
     (output s ++ [DhtMeasure; Print ("[ERROR] Sensor error: " ++ exn_str e);
                   LcdClear; LcdPutstr "Sensor error"; Sleep 2])).
Proof.
  intro H.
  unfold process_humidity. run. rewrite H. run. rewrite <- !app_assoc. reflexivity.
Qed.

Lemma never_raises_process_humidity :
  never_raises (process_humidity CONFIG str_float format_2f).
Proof.
  unfold process_humidity. apply never_raises_try_except.
  exact never_raises_sensor_error_handler.
Qed.

Lemma process_humidity_appends w s v :
  dht w = Measured (Some v) ->
  humidity_readings (snd (process_humidity CONFIG str_float format_2f w s)) =
  humidity_readings s ++ [v].
Proof.
  intro H. rewrite (process_humidity_reading w s v H).
  rewrite keeps_try_except.
  - reflexivity.
  - apply keeps_after_reading.
  - apply keeps_sensor_error_handler.
Qed.

(** A pass through the processing step records at most one value. *)
Lemma process_humidity_history w s :
  let s' := snd (process_humidity CONFIG str_float format_2f w s) in
  humidity_readings s' = humidity_readings s \/
  exists v, humidity_readings s' = humidity_readings s ++ [v].
Proof.
  simpl. destruct (dht w) as [e | [v | ]] eqn:H.
  - left. rewrite (process_humidity_measure_raises w s e H). reflexivity.
  - right. exists v. apply process_humidity_appends, H.
  - left. rewrite (process_humidity_null w s H). reflexivity.
Qed.

(** The loop body once the status check has answered. *)
Lemma cycle_after_check w s enabled s1 :
  check_sensor_status CONFIG w s = (Ok enabled, s1) ->
  cycle CONFIG str_float format_2f w s =
  ((if enabled then process_humidity CONFIG str_float format_2f
    else update_lcd "Sensor is OFF" 2) ;;
   update_lcd "Sensor working..." 2 ;; sleep 2) w s1.
Proof.
  intro H. unfold cycle. unfold bind at 1. rewrite H. reflexivity.
Qed.

Lemma cycle_check_raises w s e s1 :
  check_sensor_status CONFIG w s = (Raise e, s1) ->
  cycle CONFIG str_float format_2f w s = (Raise e, s1).
Proof.
  intro H. unfold cycle. unfold bind at 1. rewrite H. reflexivity.
Qed.

(** Only the status check can make the loop body raise. *)
Lemma cycle_raises_only_in_check w s :
  is_raise (fst (cycle CONFIG str_float format_2f w s)) =
  is_raise (fst (check_sensor_status CONFIG w s)).
Proof.
  destruct (check_sensor_status CONFIG w s) as [[enabled | e] s1] eqn:H.
  - rewrite (cycle_after_check w s enabled s1 H). simpl.
    apply never_raises_bind.
    + destruct enabled;
        [ apply never_raises_process_humidity | apply never_raises_update_lcd ].
    + intro. apply never_raises_bind;
        [ apply never_raises_update_lcd | intro; apply never_raises_emit ].
  - rewrite (cycle_check_raises w s e s1 H). reflexivity.
Qed.

Lemma cycle_history w s :
  let s' := snd (cycle CONFIG str_float format_2f w s) in
  humidity_readings s' = humidity_readings s \/
  exists v, humidity_readings s' = humidity_readings s ++ [v].
Proof.
  simpl.
  pose proof (keeps_check_sensor_status w s) as Hc.
  destruct (check_sensor_status CONFIG w s) as [[enabled | e] s1] eqn:H;
    simpl in Hc.
  - rewrite (cycle_after_check w s enabled s1 H).
    assert (Hrest : forall m : M unit,
      humidity_readings (snd ((m ;; update_lcd "Sensor working..." 2 ;; sleep 2) w s1))
      = humidity_readings (snd (m w s1))).
    { intro m.
      assert (K : keeps_readings (update_lcd "Sensor working..." 2 ;; sleep 2))
        by (apply keeps_bind; [ apply keeps_update_lcd | intro; apply keeps_emit ]).
      unfold bind at 1. destruct (m w s1) as [[a | e] s2]; [ | reflexivity ].
      exact (K w s2). }
    rewrite Hrest. destruct enabled.
    + rewrite <- Hc. apply process_humidity_history.
    + left. rewrite keeps_update_lcd. exact Hc.
  - rewrite (cycle_check_raises w s e s1 H). left. exact Hc.
Qed.

Lemma monitoring_loop_history worlds : forall s,
  exists added,
    humidity_readings (snd (monitoring_loop CONFIG str_float format_2f worlds s)) =
    humidity_readings s ++ added.
Proof.
  induction worlds as [ | w worlds IH]; intro s; simpl.
  - exists []. symmetry. apply app_nil_r.
  - pose proof (cycle_history w s) as Hc. simpl in Hc.
    destruct (cycle CONFIG str_float format_2f w s) as [[a | e] s1]; simpl in *.
    + destruct (IH s1) as [added Ha]. rewrite Ha.
      destruct Hc as [Hc | [v Hc]]; rewrite Hc.
      * exists added. reflexivity.
      * exists (v :: added). rewrite <- app_assoc. reflexivity.
    + destruct Hc as [Hc | [v Hc]]; rewrite Hc.
      * exists []. symmetry. apply app_nil_r.
      * exists [v]. reflexivity.
Qed.

End Properties.

(** *** Start-up *)

(** When the link does not come up within the ten polls, [main] shows the
    failure and returns without entering the loop: no request is sent. *)
Lemma main_halts_without_link (str_float format_2f : float -> string) worlds :
  let run :=
    main source_config str_float format_2f (fun _ => false) "0.0.0.0"
      healthy_world worlds initial_state in
  fst run = Halted /\
  displayed (output (snd run)) =
  [("Veg Sanitization" ++ newline ++ "Initializing...")%string;
   ("WiFi Fail!" ++ newline ++ "Check config")%string] /\
  filter is_http_post (output (snd run)) = [].
Proof. cbv zeta. repeat split; reflexivity. Qed.

(** With the link up, [main] enters the loop with the state the start-up
    left. *)
Lemma main_enters_loop (str_float format_2f : float -> string) worlds :
  main source_config str_float format_2f (fun _ => true) "10.0.0.2"
    healthy_world worlds initial_state =
  (let (r, s) :=
     monitoring_loop source_config str_float format_2f worlds
       (State []
          [LcdClear;
           LcdPutstr ("Veg Sanitization" ++ newline ++ "Initializing...");
           Sleep 2; WlanActive; Print "Already connected."]) in
   (Looping r, s)).
Proof. reflexivity. Qed.

(** *** The order of the floats *)

(** On floats that are not NaN, [SFcompare] is the order of the keys. *)
Lemma SFcompare_key a b :
  SFcompare a b =
  if SF_is_nan a || SF_is_nan b then None
  else Some (lex3 (float_key a) (float_key b)).
Proof.
  destruct a as [sa | sa | | sa ma ea], b as [sb | sb | | sb mb eb];
    try destruct sa; try destruct sb; try reflexivity.
  (* two negative numbers are left *)
  cbn [SFcompare SF_is_nan orb float_key lex3]. f_equal.
  change (-1 ?= -1)%Z with Eq. cbn iota.
  rewrite Z.compare_opp, (Z.compare_antisym ea eb).
  destruct (ea ?= eb)%Z; reflexivity.
Qed.

(** One step of a case analysis on the comparisons of integers. *)
Ltac lex_step :=
  match goal with
  | |- context [Z.compare ?x ?y] =>
      destruct (Z.compare_spec x y); try subst; cbn beta iota;
      try solve [ intros; first [ discriminate | reflexivity | lia
                                | exfalso; lia ] ]
  end.

Ltac lex_order :=
  unfold SFltb, SFleb, SFeqb; rewrite !SFcompare_key;
  repeat match goal with
         | |- context [SF_is_nan ?f] =>
             destruct (SF_is_nan f); cbn [orb]; cbn beta iota;
             try solve [ intros; discriminate ]
         end;
  repeat match goal with
         | |- context [float_key ?f] =>
             let k := fresh "k" in
             generalize (float_key f); intros [[? ?] ?]
         end;
  unfold lex3; repeat lex_step.

Lemma SFlt_le_trans a b c :
  SFltb a b = true -> SFleb b c = true -> SFltb a c = true.
Proof. lex_order. Qed.

Lemma SFle_lt_trans a b c :
  SFleb a b = true -> SFltb b c = true -> SFltb a c = true.
Proof. lex_order. Qed.

Lemma SFle_trans a b c :
  SFleb a b = true -> SFleb b c = true -> SFleb a c = true.
Proof. lex_order. Qed.

Lemma SFle_not_gt a b : SFleb a b = true -> SFltb b a = false.
Proof. lex_order. Qed.

Lemma SFeq_le a b : SFeqb a b = true -> SFleb a b = true /\ SFleb b a = true.
Proof.
  intro H. split; revert H; lex_order.
Qed.

Lemma SFnot_lt_ge a b :
  SFeqb a a = true -> SFeqb b b = true -> SFltb a b = false ->
  SFleb b a = true.
Proof. lex_order. Qed.

(** The same for the comparisons of the program. *)
Lemma float_lt_le_trans (a b c : float) :
  (a <? b)%float = true -> (b <=? c)%float = true -> (a <? c)%float = true.
Proof.
  rewrite !FloatAxioms.ltb_spec, FloatAxioms.leb_spec. apply SFlt_le_trans.
Qed.

Lemma float_le_lt_trans (a b c : float) :
  (a <=? b)%float = true -> (b <? c)%float = true -> (a <? c)%float = true.
Proof.
  rewrite !FloatAxioms.ltb_spec, FloatAxioms.leb_spec. apply SFle_lt_trans.
Qed.

Lemma float_le_trans (a b c : float) :
  (a <=? b)%float = true -> (b <=? c)%float = true -> (a <=? c)%float = true.
Proof. rewrite !FloatAxioms.leb_spec. apply SFle_trans. Qed.

Lemma float_le_not_gt (a b : float) :
  (a <=? b)%float = true -> (b <? a)%float = false.
Proof.
  rewrite FloatAxioms.ltb_spec, FloatAxioms.leb_spec. apply SFle_not_gt.
Qed.

Lemma float_lt_le (a b : float) :
  (a <? b)%float = true -> (a <=? b)%float = true.
Proof.
  rewrite FloatAxioms.ltb_spec, FloatAxioms.leb_spec.
  unfold SFltb, SFleb. destruct (SFcompare (Prim2SF a) (Prim2SF b)) as [ [ | | ] | ];
    intro H; first [ reflexivity | discriminate H ].
Qed.

Lemma float_eq_le (a b : float) :
  (a =? b)%float = true -> (a <=? b)%float = true /\ (b <=? a)%float = true.
Proof.
  rewrite FloatAxioms.eqb_spec, !FloatAxioms.leb_spec. apply SFeq_le.
Qed.

Lemma float_not_lt_ge (a b : float) :
  (a =? a)%float = true -> (b =? b)%float = true ->
  (a <? b)%float = false -> (b <=? a)%float = true.
Proof.
  rewrite !FloatAxioms.eqb_spec, FloatAxioms.ltb_spec, FloatAxioms.leb_spec.
  apply SFnot_lt_ge.
Qed.

(** A value below the low threshold is not above a high threshold that is
    not below the low one. *)
Lemma below_low_not_above_high (low high v : float) :
  (low <=? high)%float = true -> (v <? low)%float = true ->
  (high <? v)%float = false.
Proof.
  intros Hlh Hv. apply float_le_not_gt, float_lt_le.
  exact (float_lt_le_trans v low high Hv Hlh).
Qed.

(** *** The classifier *)

(** C2. With thresholds [low <= high], the classifier answers "Too Dry!"
    exactly for the values below [low], "Too Humid!" exactly for the values
    above [high] and "Optimal" for all the others; a value equal to [low] or
    to [high] is "Optimal". The comparisons are those of the floats. *)
Theorem classifier_thresholds (CONFIG : config) (v : float) :
  (IDEAL_HUMIDITY_LOW CONFIG <=? IDEAL_HUMIDITY_HIGH CONFIG)%float = true ->
  (calculate_humidity_status CONFIG v = "Too Dry!"%string <->
   (v <? IDEAL_HUMIDITY_LOW CONFIG)%float = true) /\
  (calculate_humidity_status CONFIG v = "Too Humid!"%string <->
   (IDEAL_HUMIDITY_HIGH CONFIG <? v)%float = true) /\
  (calculate_humidity_status CONFIG v = "Optimal"%string <->
   (v <? IDEAL_HUMIDITY_LOW CONFIG)%float = false /\
   (IDEAL_HUMIDITY_HIGH CONFIG <? v)%float = false) /\
  ((v =? IDEAL_HUMIDITY_LOW CONFIG)%float = true ->
   calculate_humidity_status CONFIG v = "Optimal"%string) /\
  ((v =? IDEAL_HUMIDITY_HIGH CONFIG)%float = true ->
   calculate_humidity_status CONFIG v = "Optimal"%string).
Proof.
  intro Hlh.
  assert (Hat_low : (v =? IDEAL_HUMIDITY_LOW CONFIG)%float = true ->
                    (v <? IDEAL_HUMIDITY_LOW CONFIG)%float = false /\
                    (IDEAL_HUMIDITY_HIGH CONFIG <? v)%float = false).
  { intro Heq. destruct (float_eq_le _ _ Heq) as [Hle Hge]. split.
    - apply float_le_not_gt. exact Hge.
    - apply float_le_not_gt. exact (float_le_trans _ _ _ Hle Hlh). }
  assert (Hat_high : (v =? IDEAL_HUMIDITY_HIGH CONFIG)%float = true ->
                     (v <? IDEAL_HUMIDITY_LOW CONFIG)%float = false /\
                     (IDEAL_HUMIDITY_HIGH CONFIG <? v)%float = false).
  { intro Heq. destruct (float_eq_le _ _ Heq) as [Hle Hge]. split.
    - apply float_le_not_gt. exact (float_le_trans _ _ _ Hlh Hge).
    - apply float_le_not_gt. exact Hle. }
  pose proof (below_low_not_above_high _ _ v Hlh) as Hbelow.
  unfold calculate_humidity_status.
  destruct (v <? IDEAL_HUMIDITY_LOW CONFIG)%float eqn:Hlow;
    [ | destruct (IDEAL_HUMIDITY_HIGH CONFIG <? v)%float eqn:Hhigh ].
  - (* below the band *)
    rewrite (Hbelow eq_refl) in *.
    split; [ split; reflexivity | ].
    split; [ split; discriminate | ].
    split; [ split; [ discriminate | intros [H _]; discriminate H ] | ].
    split; intro Heq;
      [ destruct (Hat_low Heq) as [H _] | destruct (Hat_high Heq) as [H _] ];
      discriminate H.
  - (* above the band *)
    split; [ split; discriminate | ].
    split; [ split; reflexivity | ].
    split; [ split; [ discriminate | intros [_ H]; discriminate H ] | ].
    split; intro Heq;
      [ destruct (Hat_low Heq) as [_ H] | destruct (Hat_high Heq) as [_ H] ];
      discriminate H.
  - (* inside the band, ends included *)
    split; [ split; discriminate | ].
    split; [ split; discriminate | ].
    split; [ split; [ intros _; split; reflexivity | reflexivity ] | ].
    split; reflexivity.
Qed.

Lemma classifier_thresholds_witness :
  (IDEAL_HUMIDITY_LOW source_config <=? IDEAL_HUMIDITY_HIGH source_config)%float
  = true /\
  (calculate_humidity_status source_config 65 = "Optimal"%string <->
   (65 <? IDEAL_HUMIDITY_LOW source_config)%float = false /\
   (IDEAL_HUMIDITY_HIGH source_config <? 65)%float = false).
Proof.
  split; [ reflexivity | ].
  exact (proj1 (proj2 (proj2 (classifier_thresholds source_config 65 eq_refl)))).
Defined.

(** *** The running average *)

Lemma record_all_history (values : list float) : forall w s,
  record_all values w s =
  (Ok tt, State (humidity_readings s ++ values) (output s)).
Proof.
  induction values as [ | v values IH]; intros w s; simpl.
  - unfold ret. rewrite app_nil_r. destruct s; reflexivity.
  - unfold bind, append_reading. rewrite IH. simpl.
    rewrite <- app_assoc. reflexivity.
Qed.

Lemma float_value_zero : float_value 0%float = Some 0%Q.
Proof. reflexivity. Qed.

Lemma float_values_length l : forall qs,
  float_values l = Some qs -> List.length qs = List.length l.
Proof.
  induction l as [ | x l IH ]; intros qs H; cbn [float_values] in H.
  - injection H as <-. reflexivity.
  - destruct (float_value x) as [ q | ]; [ | discriminate H ].
    destruct (float_values l) as [ qs' | ]; [ | discriminate H ].
    injection H as <-. cbn [List.length]. rewrite (IH qs' eq_refl). reflexivity.
Qed.

(** When no addition rounds, the float sum stands for the sum of the
    rationals. *)
Lemma exact_sum_total l : forall acc a,
  exact_sum acc l = true -> float_value acc = Some a ->
  exists t qs,
    float_value (fold_left PrimFloat.add l acc) = Some t /\
    float_values l = Some qs /\
    (t == a + fold_right Qplus 0 qs)%Q.
Proof.
  induction l as [ | x l IH ]; intros acc a Hexact Hacc;
    cbn [exact_sum fold_left float_values] in *.
  - exists a, []. split; [ exact Hacc | ]. split; [ reflexivity | ].
    cbn [fold_right]. ring.
  - apply andb_true_iff in Hexact. destruct Hexact as [Hadd Hrest].
    unfold exact_add in Hadd. rewrite Hacc in Hadd.
    destruct (float_value x) as [ b | ]; [ | discriminate Hadd ].
    destruct (float_value (acc + x)%float) as [ c | ] eqn:Hc;
      [ | discriminate Hadd ].
    apply Qeq_bool_iff in Hadd.
    destruct (IH (acc + x)%float c Hrest Hc) as (t & qs & Ht & Hqs & Heq).
    exists t, (b :: qs). split; [ exact Ht | ].
    rewrite Hqs. split; [ reflexivity | ].
    cbn [fold_right]. rewrite Heq, Hadd. ring.
Qed.

(** When no step rounds, the average is the arithmetic mean. *)
Lemma exact_average_is_mean l :
  l <> [] -> exact_average l = true ->
  exists m qs,
    float_value (average l) = Some m /\
    float_values l = Some qs /\
    (m == arithmetic_mean qs)%Q.
Proof.
  intros Hne Hexact. unfold exact_average in Hexact.
  apply andb_true_iff in Hexact. destruct Hexact as [Hexact Hdiv].
  apply andb_true_iff in Hexact. destruct Hexact as [Hsum Hcount].
  destruct (exact_sum_total l 0%float 0%Q Hsum float_value_zero)
    as (t & qs & Ht & Hqs & Heq).
  fold (py_sum l) in Ht.
  unfold exact_count in Hcount.
  destruct (float_value (py_len l)) as [ n | ] eqn:Hn; [ | discriminate Hcount ].
  apply Qeq_bool_iff in Hcount.
  unfold exact_div in Hdiv. rewrite Ht, Hn in Hdiv.
  destruct (float_value (py_sum l / py_len l)%float) as [ c | ] eqn:Hc;
    [ | discriminate Hdiv ].
  apply Qeq_bool_iff in Hdiv.
  exists c, qs.
  split; [ destruct l; [ contradiction | exact Hc ] | ].
  split; [ exact Hqs | ].
  unfold arithmetic_mean. rewrite (float_values_length l qs Hqs).
  rewrite Hdiv, Heq, Hcount. field.
  intro Hz. destruct l as [ | x l ]; [ contradiction | ].
  cbn [List.length] in Hz. rewrite Nat2Z.inj_succ in Hz.
  unfold Qeq in Hz. cbn in Hz. lia.
Qed.

Lemma average_of_history (v : float) (l : list float) :
  average (v :: l) = (py_sum (v :: l) / py_len (v :: l))%float.
Proof. reflexivity. Qed.


(** C3, counterexample. Three readings of 61.7: the sum of the floats is
    rounded and so is the quotient, and the average, 61.70000000000001, is
    not the mean of the three values, which is their common value. *)
Lemma rounding_moves_average :
  average [61.7; 61.7; 61.7]%float = 61.70000000000001%float /\
  exists m q,
    float_value (average [61.7; 61.7; 61.7]%float) = Some m /\
    float_value 61.7%float = Some q /\
    float_values [61.7; 61.7; 61.7]%float = Some [q; q; q] /\
    (arithmetic_mean [q; q; q] == q)%Q /\
    ~ (m == arithmetic_mean [q; q; q])%Q.
Proof.
  split; [ reflexivity | ].
  eexists. eexists.
  split; [ reflexivity | ].
  split; [ reflexivity | ].
  split; [ reflexivity | ].
  split; [ vm_compute; reflexivity | ].
  vm_compute. intro H. discriminate H.
Qed.

(** C3, amended. The running average is 0 on the empty history. On a
    non-empty history it is the float quotient of the float sum, taken from
    left to right, by the count; this is the arithmetic mean of the recorded
    values whenever no addition and no division rounds, as after 50, 60 and
    70, where it is 60. The history is left as it was. *)
Theorem running_average :
  (forall w out,
     calculate_average_humidity w (State [] out) = (Ok 0%float, State [] out)) /\
  (forall w v l out,
     calculate_average_humidity w (State (v :: l) out) =
     (Ok (py_sum (v :: l) / py_len (v :: l))%float, State (v :: l) out)) /\
  (forall l,
     l <> [] -> exact_average l = true ->
     exists m qs,
       float_value (average l) = Some m /\
       float_values l = Some qs /\
       (m == arithmetic_mean qs)%Q) /\
  (forall w,
     exists s,
       record_all [50%float; 60%float; 70%float] w initial_state = (Ok tt, s) /\
       humidity_readings s = [50%float; 60%float; 70%float] /\
       exact_average (humidity_readings s) = true /\
       calculate_average_humidity w s = (Ok 60%float, s)).
Proof.
  split; [ intros w out; reflexivity | ].
  split; [ intros w v l out; reflexivity | ].
  split; [ exact exact_average_is_mean | ].
  intro w. eexists.
  split; [ apply record_all_history | ].
  split; [ reflexivity | ].
  split; [ vm_compute; reflexivity | reflexivity ].
Qed.

Lemma running_average_witness :
  [50%float; 60%float; 70%float] <> [] /\
  exact_average [50%float; 60%float; 70%float] = true /\
  exists m qs,
    float_value (average [50%float; 60%float; 70%float]) = Some m /\
    float_values [50%float; 60%float; 70%float] = Some qs /\
    (m == arithmetic_mean qs)%Q.
Proof.
  assert (Hne : [50%float; 60%float; 70%float] <> []) by discriminate.
  assert (Hex : exact_average [50%float; 60%float; 70%float] = true)
    by (vm_compute; reflexivity).
  split; [ exact Hne | ]. split; [ exact Hex | ].
  exact (proj1 (proj2 (proj2 running_average)) _ Hne Hex).
Defined.

(** *** The remote-call primitive *)

Lemma request_endpoint_get_transport url params w s e :
  http_get w url = TransportError e ->
  request_endpoint url params "get" w s =
  (Ok JNull,
   State (humidity_readings s)
     (output s ++
      [HttpGet url;
       Print ("[ERROR] Failed to reach endpoint " ++ url ++ ": " ++ exn_str e)])).
Proof.
  intro H. unfold request_endpoint. run. rewrite H. run.
  rewrite <- app_assoc. reflexivity.
Qed.

Lemma request_endpoint_get_bad_body url params w s :
  http_get w url = Responded None ->
  request_endpoint url params "get" w s =
  (Ok JNull,
   State (humidity_readings s)
     (output s ++
      [HttpGet url; ResponseJson;
       Print ("[ERROR] Failed to reach endpoint " ++ url ++
              ": syntax error in JSON")])).
Proof.
  intro H. unfold request_endpoint. run. rewrite H. run.
  rewrite <- !app_assoc. reflexivity.
Qed.

Lemma request_endpoint_get_body url params w s j :
  http_get w url = Responded (Some j) ->
  request_endpoint url params "get" w s =
  (Ok j,
   State (humidity_readings s)
     (output s ++ [HttpGet url; ResponseJson; ResponseClose])).
Proof.
  intro H. unfold request_endpoint. run. rewrite H. run.
  rewrite <- !app_assoc. reflexivity.
Qed.

Lemma request_endpoint_post_transport url params w s e :
  http_post w url params = TransportError e ->
  request_endpoint url params "post" w s =
  (Ok JNull,
   State (humidity_readings s)
     (output s ++
      [HttpPost url params json_headers;
       Print ("[ERROR] Failed to reach endpoint " ++ url ++ ": " ++ exn_str e)])).
Proof.
  intro H. unfold request_endpoint. run. rewrite H. run.
  rewrite <- app_assoc. reflexivity.
Qed.

Lemma request_endpoint_post_sent url params w s body :
  http_post w url params = Responded body ->
  request_endpoint url params "post" w s =
  (Ok JNull,
   State (humidity_readings s) (output s ++ [HttpPost url params json_headers])).
Proof.
  intro H. unfold request_endpoint. run. rewrite H. reflexivity.
Qed.

Lemma error_line_mentions url text :
  mentions ("[ERROR] Failed to reach endpoint " ++ url ++ ": " ++ text) url.
Proof.
  exists "[ERROR] Failed to reach endpoint "%string, (": " ++ text)%string.
  reflexivity.
Qed.

(** C7. When the transport raises (GET or POST) or the body of a GET does
    not parse, [request_endpoint] returns None without raising, leaves the
    history alone and writes exactly one error line, which contains the
    URL. *)
Theorem request_failure_is_null url params method e w s :
  call_fails w url params method e ->
  exists evs line,
    request_endpoint url params method w s =
    (Ok JNull, State (humidity_readings s) (output s ++ evs)) /\
    error_entries evs = [Print line] /\
    line = ("[ERROR] Failed to reach endpoint " ++ url ++ ": " ++ exn_str e)%string /\
    mentions line url.
Proof.
  intro Hfail.
  destruct Hfail as [e Hget | Hget | e Hpost].
  - eexists. eexists.
    split; [ apply request_endpoint_get_transport; exact Hget | ].
    split; [ reflexivity | ].
    split; [ reflexivity | apply error_line_mentions ].
  - eexists. eexists.
    split; [ apply request_endpoint_get_bad_body; exact Hget | ].
    split; [ reflexivity | ].
    split; [ reflexivity | apply error_line_mentions ].
  - eexists. eexists.
    split; [ apply request_endpoint_post_transport; exact Hpost | ].
    split; [ reflexivity | ].
    split; [ reflexivity | apply error_line_mentions ].
Qed.

Lemma request_failure_is_null_witness :
  call_fails status_down_world "http://host/status" JNull "get" timed_out /\
  exists evs line,
    request_endpoint "http://host/status" JNull "get" status_down_world
      initial_state = (Ok JNull, State [] ([] ++ evs)) /\
    error_entries evs = [Print line] /\
    line = "[ERROR] Failed to reach endpoint http://host/status: ETIMEDOUT"%string /\
    mentions line "http://host/status".
Proof.
  assert (H : call_fails status_down_world "http://host/status" JNull "get"
                timed_out) by (apply get_transport_fails; reflexivity).
  split; [ exact H | ].
  exact (request_failure_is_null "http://host/status" JNull "get" timed_out
           status_down_world initial_state H).
Defined.

(** C8. A POST through [request_endpoint] sends the request with the
    parameters as body and the header Content-Type: application/json, never
    reads the response body, and returns None whether the request went
    through or not; after the request the only thing it may still do is
    write the error line. *)
Theorem post_returns_null url params w s :
  exists evs,
    request_endpoint url params "post" w s =
    (Ok JNull,
     State (humidity_readings s)
       (output s ++
        HttpPost url params [("Content-Type", "application/json")%string] :: evs)) /\
    ~ In ResponseJson evs /\
    (evs = [] \/ exists line, evs = [Print line]).
Proof.
  destruct (http_post w url params) as [e | body] eqn:H.
  - eexists. split; [ apply request_endpoint_post_transport; exact H | ].
    split.
    + intros [Hin | []]. discriminate Hin.
    + right. eexists. reflexivity.
  - exists []. split; [ apply (request_endpoint_post_sent _ _ _ _ body); exact H | ].
    split.
    + intros [].
    + left. reflexivity.
Qed.

(** *** The status check *)

Section StatusCheck.

Variable CONFIG : config.
Variables str_float format_2f : float -> string.

(** What [check_sensor_status] makes of the value [request_endpoint]
    returned. *)
Lemma check_sensor_status_of_response w s r s1 :
  request_endpoint (SENSOR_STATUS_ENDPOINT CONFIG) JNull "get" w s = (Ok r, s1) ->
  check_sensor_status CONFIG w s =
  (items <- lift (py_get (py_or r (JObj [])) "items" (JObj [])) ;;
   first <- lift (py_item0 items) ;;
   status <- lift (py_get first "status" (JStr "OFF")) ;;
   ret (py_eq_str status "ON")) w s1.
Proof.
  intro H. unfold check_sensor_status. unfold bind at 1. rewrite H. reflexivity.
Qed.

(** A call that failed leaves None, and None has no first item. *)
Lemma check_sensor_status_null w s s1 :
  request_endpoint (SENSOR_STATUS_ENDPOINT CONFIG) JNull "get" w s = (Ok JNull, s1) ->
  check_sensor_status CONFIG w s = (Raise (Exn KeyError "0"), s1).
Proof.
  intro H. rewrite (check_sensor_status_of_response w s JNull s1 H). reflexivity.
Qed.

(** So has an object that parsed but has no [items]. *)
Lemma check_sensor_status_no_items w s fields s1 :
  request_endpoint (SENSOR_STATUS_ENDPOINT CONFIG) JNull "get" w s =
  (Ok (JObj fields), s1) ->
  assoc "items" fields = None ->
  check_sensor_status CONFIG w s = (Raise (Exn KeyError "0"), s1).
Proof.
  intros H Hitems.
  rewrite (check_sensor_status_of_response w s (JObj fields) s1 H).
  destruct fields as [ | kv fields ]; [ reflexivity | ].
  cbv [bind lift py_or truthy py_get]. rewrite Hitems. reflexivity.
Qed.

(** A first item whose status is a string. *)
Lemma check_sensor_status_string w s fields first others status s1 :
  request_endpoint (SENSOR_STATUS_ENDPOINT CONFIG) JNull "get" w s =
  (Ok (JObj fields), s1) ->
  assoc "items" fields = Some (JArr (JObj first :: others)) ->
  assoc "status" first = Some (JStr status) ->
  check_sensor_status CONFIG w s = (Ok (String.eqb status "ON"), s1).
Proof.
  intros H Hitems Hstatus.
  rewrite (check_sensor_status_of_response w s (JObj fields) s1 H).
  destruct fields as [ | kv fields ]; [ discriminate Hitems | ].
  cbv [bind lift py_or truthy py_get]. rewrite Hitems.
  cbv [py_item0]. rewrite Hstatus. reflexivity.
Qed.

(** A disabled cycle: the processing step does not run, the display shows
    "Sensor is OFF" and then the idle message, and the loop goes on. *)
Lemma cycle_disabled w s s1 :
  check_sensor_status CONFIG w s = (Ok false, s1) ->
  cycle CONFIG str_float format_2f w s =
  (Ok tt,
   State (humidity_readings s1)
     (output s1 ++ [LcdClear; LcdPutstr "Sensor is OFF"; Sleep 2] ++ idle_events)).
Proof.
  intro H. rewrite (cycle_after_check CONFIG str_float format_2f w s false s1 H).
  run. rewrite <- !app_assoc. reflexivity.
Qed.

Lemma monitoring_loop_step w later s s1 :
  cycle CONFIG str_float format_2f w s = (Ok tt, s1) ->
  monitoring_loop CONFIG str_float format_2f (w :: later) s =
  monitoring_loop CONFIG str_float format_2f later s1.
Proof. intro H. simpl. rewrite H. reflexivity. Qed.

Lemma monitoring_loop_stops w later s e s1 :
  cycle CONFIG str_float format_2f w s = (Raise e, s1) ->
  monitoring_loop CONFIG str_float format_2f (w :: later) s = (Raise e, s1).
Proof. intro H. simpl. rewrite H. reflexivity. Qed.

(** The status endpoint answering a status other than "ON": one disabled
    cycle, and the loop continues with the next one. *)
Lemma status_not_on_skips_processing w later s fields first others status :
  http_get w (SENSOR_STATUS_ENDPOINT CONFIG) = Responded (Some (JObj fields)) ->
  assoc "items" fields = Some (JArr (JObj first :: others)) ->
  assoc "status" first = Some (JStr status) ->
  status <> "ON"%string ->
  let s1 :=
    State (humidity_readings s)
      (output s ++
       [HttpGet (SENSOR_STATUS_ENDPOINT CONFIG); ResponseJson; ResponseClose] ++
       [LcdClear; LcdPutstr "Sensor is OFF"; Sleep 2] ++ idle_events) in
  cycle CONFIG str_float format_2f w s = (Ok tt, s1) /\
  monitoring_loop CONFIG str_float format_2f (w :: later) s =
  monitoring_loop CONFIG str_float format_2f later s1.
Proof.
  intros Hget Hitems Hstatus Hoff s1.
  assert (Hc : cycle CONFIG str_float format_2f w s = (Ok tt, s1)).
  { pose proof (request_endpoint_get_body _ JNull w s _ Hget) as Hreq.
    pose proof (check_sensor_status_string w s _ _ _ _ _ Hreq Hitems Hstatus) as Hchk.
    apply String.eqb_neq in Hoff. rewrite Hoff in Hchk.
    rewrite (cycle_disabled w s _ Hchk). unfold s1. cbn [humidity_readings output].
    rewrite <- !app_assoc. reflexivity. }
  split; [ exact Hc | apply monitoring_loop_step; exact Hc ].
Qed.

End StatusCheck.

(** C1. With the status endpoint out of reach, [request_endpoint] returns
    None, [check_sensor_status] looks for item 0 of the empty dict that
    stands in for the missing [items], and the KeyError leaves the loop
    body and ends the loop: nothing is shown and no later cycle runs. The
    same happens when the answer parses but has no [items]. *)
Theorem status_unavailable_ends_loop (str_float format_2f : float -> string) :
  cycle source_config str_float format_2f status_down_world initial_state =
  (Raise (Exn KeyError "0"),
   State []
     [HttpGet (SENSOR_STATUS_ENDPOINT source_config);
      Print ("[ERROR] Failed to reach endpoint " ++
             SENSOR_STATUS_ENDPOINT source_config ++ ": ETIMEDOUT")]) /\
  fst (cycle source_config str_float format_2f no_items_world initial_state) =
  Raise (Exn KeyError "0") /\
  (forall later,
     monitoring_loop source_config str_float format_2f
       (status_down_world :: later) initial_state =
     cycle source_config str_float format_2f status_down_world initial_state) /\
  (forall later,
     fst (monitoring_loop source_config str_float format_2f
            (no_items_world :: later) initial_state) =
     Raise (Exn KeyError "0")).
Proof.
  assert (Hdown :
    cycle source_config str_float format_2f status_down_world initial_state =
    (Raise (Exn KeyError "0"),
     State []
       [HttpGet (SENSOR_STATUS_ENDPOINT source_config);
        Print ("[ERROR] Failed to reach endpoint " ++
               SENSOR_STATUS_ENDPOINT source_config ++ ": ETIMEDOUT")])).
  { apply cycle_check_raises. apply check_sensor_status_null.
    apply (request_endpoint_get_transport _ JNull status_down_world initial_state
             timed_out).
    reflexivity. }
  assert (Hnone :
    cycle source_config str_float format_2f no_items_world initial_state =
    (Raise (Exn KeyError "0"),
     State [] [HttpGet (SENSOR_STATUS_ENDPOINT source_config);
               ResponseJson; ResponseClose])).
  { apply cycle_check_raises.
    apply (check_sensor_status_no_items source_config no_items_world initial_state
             [("count"%string, JNum 0)]).
    - apply (request_endpoint_get_body _ JNull no_items_world initial_state).
      reflexivity.
    - reflexivity. }
  split; [ exact Hdown | ].
  split; [ rewrite Hnone; reflexivity | ].
  split.
  - intro later. rewrite Hdown. apply monitoring_loop_stops. exact Hdown.
  - intro later. rewrite (monitoring_loop_stops _ _ _ _ _ _ _ _ Hnone). reflexivity.
Qed.

(** *** The advisory step *)

Section Advisory.

Variable CONFIG : config.
Variables str_float format_2f : float -> string.

Lemma request_gemini_response_transport prompt w s e :
  http_post w (gemini_url CONFIG) (gemini_payload prompt) = TransportError e ->
  request_gemini_response CONFIG prompt w s =
  (Ok JNull,
   State (humidity_readings s)
     (output s ++
      [HttpPost (gemini_url CONFIG) (gemini_payload prompt) json_headers;
       Print ("[ERROR] Failed to reach Gemini endpoint: " ++ exn_str e)])).
Proof.
  intro H. unfold request_gemini_response. run. rewrite H. run.
  rewrite <- app_assoc. reflexivity.
Qed.

Lemma request_gemini_response_bad_body prompt w s :
  http_post w (gemini_url CONFIG) (gemini_payload prompt) = Responded None ->
  request_gemini_response CONFIG prompt w s =
  (Ok JNull,
   State (humidity_readings s)
     (output s ++
      [HttpPost (gemini_url CONFIG) (gemini_payload prompt) json_headers;
       ResponseJson;
       Print "[ERROR] Failed to reach Gemini endpoint: syntax error in JSON"])).
Proof.
  intro H. unfold request_gemini_response. run. rewrite H. run.
  rewrite <- !app_assoc. reflexivity.
Qed.

Lemma request_gemini_response_body prompt w s j :
  http_post w (gemini_url CONFIG) (gemini_payload prompt) = Responded (Some j) ->
  request_gemini_response CONFIG prompt w s =
  (Ok j,
   State (humidity_readings s)
     (output s ++
      [HttpPost (gemini_url CONFIG) (gemini_payload prompt) json_headers;
       ResponseJson; ResponseClose])).
Proof.
  intro H. unfold request_gemini_response. run. rewrite H. run.
  rewrite <- !app_assoc. reflexivity.
Qed.

Lemma never_raises_request_gemini_response prompt :
  never_raises (request_gemini_response CONFIG prompt).
Proof.
  unfold request_gemini_response. apply never_raises_try_except. intro e.
  apply never_raises_bind; [ apply never_raises_log | intro; apply never_raises_ret ].
Qed.

(** The advisory step once the text service call has returned. *)
Lemma generate_vegetable_suggestions_of_response humidity status w s response s1 :
  request_gemini_response CONFIG (advice_prompt str_float humidity status) w s =
  (Ok response, s1) ->
  generate_vegetable_suggestions CONFIG str_float humidity status w s =
  (if truthy response then
     candidates <- lift (py_get response "candidates" (JArr [JObj []])) ;;
     candidate <- lift (py_item0 candidates) ;;
     content <- lift (py_get candidate "content" (JObj [])) ;;
     generated_text <- lift (py_get content "parts" (JArr [])) ;;
     part <- lift (py_item0 generated_text) ;;
     text <- lift (py_get part "text" (JStr "No advice available.")) ;;
     words <- lift (py_split text) ;;
     update_lcd (status ++ newline ++
                 (String.concat " " (firstn 20 words) ++ "..."))%string 3
   else update_lcd "Failed to get advice" 2) w s1.
Proof.
  intro H. unfold generate_vegetable_suggestions. unfold bind at 1.
  rewrite H. reflexivity.
Qed.

(** A call that came back with None: the fixed message, no exception. *)
Lemma advice_null_shows_failure humidity status w s s1 :
  request_gemini_response CONFIG (advice_prompt str_float humidity status) w s =
  (Ok JNull, s1) ->
  generate_vegetable_suggestions CONFIG str_float humidity status w s =
  (Ok tt,
   State (humidity_readings s1)
     (output s1 ++ [LcdClear; LcdPutstr "Failed to get advice"; Sleep 2])).
Proof.
  intro H. rewrite (generate_vegetable_suggestions_of_response _ _ _ _ _ _ H).
  run. rewrite <- !app_assoc. reflexivity.
Qed.

(** A non-empty answer without [candidates]: every default is taken down to
    the empty list of parts, whose item 0 does not exist. *)
Lemma advice_without_candidates_raises humidity status w s kv fields s1 :
  request_gemini_response CONFIG (advice_prompt str_float humidity status) w s =
  (Ok (JObj (kv :: fields)), s1) ->
  assoc "candidates" (kv :: fields) = None ->
  generate_vegetable_suggestions CONFIG str_float humidity status w s =
  (Raise (Exn IndexError "list index out of range"), s1).
Proof.
  intros H Hc. rewrite (generate_vegetable_suggestions_of_response _ _ _ _ _ _ H).
  cbv [truthy bind lift py_get]. rewrite Hc. reflexivity.
Qed.

(** An answer in the expected shape whose list of parts is empty. *)
Lemma advice_with_empty_parts_raises humidity status w s s1 :
  request_gemini_response CONFIG (advice_prompt str_float humidity status) w s =
  (Ok (JObj [("candidates"%string,
              JArr [JObj [("content"%string,
                           JObj [("parts"%string, JArr [])])]])]), s1) ->
  generate_vegetable_suggestions CONFIG str_float humidity status w s =
  (Raise (Exn IndexError "list index out of range"), s1).
Proof.
  intro H. rewrite (generate_vegetable_suggestions_of_response _ _ _ _ _ _ H).
  reflexivity.
Qed.

(** A first part without [text]: the default text is shown. *)
Lemma advice_without_text_shows_default humidity status w s s1 :
  request_gemini_response CONFIG (advice_prompt str_float humidity status) w s =
  (Ok (JObj [("candidates"%string,
              JArr [JObj [("content"%string,
                           JObj [("parts"%string, JArr [JObj []])])]])]), s1) ->
  generate_vegetable_suggestions CONFIG str_float humidity status w s =
  (Ok tt,
   State (humidity_readings s1)
     (output s1 ++
      [LcdClear;
       LcdPutstr (status ++ newline ++ "No advice available....")%string;
       Sleep 3])).
Proof.
  intro H. rewrite (generate_vegetable_suggestions_of_response _ _ _ _ _ _ H).
  run. rewrite <- !app_assoc. reflexivity.
Qed.


End Advisory.

(** *** A cycle without a reading *)

(** C4, counterexample. In the enabled cycle of [null_reading_world], whose
    sensor hands back None, the display shows the idle message only and
    never "Sensor error". *)
Lemma null_reading_shows_no_error :
  dht null_reading_world = Measured None /\
  fst (check_sensor_status source_config null_reading_world initial_state) =
  Ok true /\
  displayed
    (output (snd (cycle source_config sample_str_float sample_format_2f
                    null_reading_world initial_state))) =
  ["Sensor working..."%string] /\
  ~ In "Sensor error"%string
      (displayed
         (output (snd (cycle source_config sample_str_float sample_format_2f
                         null_reading_world initial_state)))).
Proof.
  split; [ reflexivity | ].
  split; [ reflexivity | ].
  split; [ reflexivity | ].
  intros [H | []]. discriminate H.
Qed.

(** C4, amended. In an enabled cycle whose sensor hands back None the
    processing step does nothing after the measurement: the history is
    unchanged, no request is sent (no advisory call, no upload) and nothing
    is written to the display; the cycle then shows the idle message, sleeps
    and the loop goes on with the next cycle. *)
Theorem null_reading_skips_processing (CONFIG : config)
  (str_float format_2f : float -> string) w s s1 :
  dht w = Measured None ->
  check_sensor_status CONFIG w s = (Ok true, s1) ->
  process_humidity CONFIG str_float format_2f w s1 =
  (Ok tt, State (humidity_readings s1) (output s1 ++ [DhtMeasure])) /\
  cycle CONFIG str_float format_2f w s =
  (Ok tt,
   State (humidity_readings s) (output s1 ++ DhtMeasure :: idle_events)) /\
  displayed (DhtMeasure :: idle_events) = ["Sensor working..."%string] /\
  filter is_http_post (DhtMeasure :: idle_events) = [] /\
  (forall later,
     monitoring_loop CONFIG str_float format_2f (w :: later) s =
     monitoring_loop CONFIG str_float format_2f later
       (State (humidity_readings s) (output s1 ++ DhtMeasure :: idle_events))).
Proof.
  intros Hnull Hon.
  assert (Hc : cycle CONFIG str_float format_2f w s =
               (Ok tt, State (humidity_readings s)
                         (output s1 ++ DhtMeasure :: idle_events))).
  { rewrite (cycle_after_check CONFIG str_float format_2f w s true s1 Hon).
    unfold bind at 1.
    rewrite (process_humidity_null CONFIG str_float format_2f w s1 Hnull).
    pose proof (keeps_check_sensor_status CONFIG w s) as Hk.
    rewrite Hon in Hk. simpl in Hk. rewrite <- Hk.
    run. rewrite <- !app_assoc. reflexivity. }
  split; [ apply process_humidity_null; exact Hnull | ].
  split; [ exact Hc | ].
  split; [ reflexivity | ].
  split; [ reflexivity | ].
  intro later. apply monitoring_loop_step. exact Hc.
Qed.

Lemma null_reading_skips_processing_witness :
  dht null_reading_world = Measured None /\
  cycle source_config sample_str_float sample_format_2f null_reading_world
    initial_state =
  (Ok tt,
   State []
     ([HttpGet (SENSOR_STATUS_ENDPOINT source_config); ResponseJson;
       ResponseClose] ++ DhtMeasure :: idle_events)).
Proof.
  split; [ reflexivity | ].
  exact (proj1 (proj2
    (null_reading_skips_processing source_config sample_str_float
       sample_format_2f null_reading_world initial_state
       (State [] [HttpGet (SENSOR_STATUS_ENDPOINT source_config); ResponseJson;
                  ResponseClose])
       eq_refl eq_refl))).
Defined.

(** *** Failures of the advisory step *)

(** C5. The text service answers a rejected request with an object that
    has [error] and no [candidates]. The advisory step then takes the
    defaults down to the empty list of parts and raises IndexError on its
    item 0: "Failed to get advice" is not shown, nothing is. An answer in
    the expected shape with an empty list of parts does the same. *)
Theorem advice_error_reply_raises (str_float : float -> string) (humidity : float)
  (status : string) :
  generate_vegetable_suggestions source_config str_float humidity status
    advice_rejected_world initial_state =
  (Raise (Exn IndexError "list index out of range"),
   State []
     [HttpPost (gemini_url source_config)
        (gemini_payload (advice_prompt str_float humidity status)) json_headers;
      ResponseJson; ResponseClose]) /\
  displayed
    (output (snd (generate_vegetable_suggestions source_config str_float
                    humidity status advice_rejected_world initial_state))) = [] /\
  generate_vegetable_suggestions source_config str_float humidity status
    empty_parts_world initial_state =
  (Raise (Exn IndexError "list index out of range"),
   State []
     [HttpPost (gemini_url source_config)
        (gemini_payload (advice_prompt str_float humidity status)) json_headers;
      ResponseJson; ResponseClose]).
Proof.
  assert (H :
    generate_vegetable_suggestions source_config str_float humidity status
      advice_rejected_world initial_state =
    (Raise (Exn IndexError "list index out of range"),
     State []
       [HttpPost (gemini_url source_config)
          (gemini_payload (advice_prompt str_float humidity status)) json_headers;
        ResponseJson; ResponseClose])).
  { apply (advice_without_candidates_raises source_config str_float humidity
             status advice_rejected_world initial_state
             ("error"%string,
              JObj [("code"%string, JNum 400);
                    ("status"%string, JStr "INVALID_ARGUMENT")]) []).
    - apply (request_gemini_response_body source_config _ advice_rejected_world
               initial_state error_reply).
      reflexivity.
    - reflexivity. }
  split; [ exact H | ].
  split; [ rewrite H; reflexivity | ].
  apply advice_with_empty_parts_raises.
  apply (request_gemini_response_body source_config _ empty_parts_world
           initial_state empty_parts_reply).
  reflexivity.
Qed.

(** A transport failure of the advisory call, by contrast, ends in the
    fixed message. *)
Lemma advice_transport_failure_shows_message (CONFIG : config)
  (str_float : float -> string) humidity status w s e :
  http_post w (gemini_url CONFIG)
    (gemini_payload (advice_prompt str_float humidity status)) =
  TransportError e ->
  generate_vegetable_suggestions CONFIG str_float humidity status w s =
  (Ok tt,
   State (humidity_readings s)
     (output s ++
      [HttpPost (gemini_url CONFIG)
         (gemini_payload (advice_prompt str_float humidity status)) json_headers;
       Print ("[ERROR] Failed to reach Gemini endpoint: " ++ exn_str e);
       LcdClear; LcdPutstr "Failed to get advice"; Sleep 2])).
Proof.
  intro H.
  rewrite (advice_null_shows_failure CONFIG str_float humidity status w s _
             (request_gemini_response_transport CONFIG _ w s e H)).
  cbv [humidity_readings output]. rewrite <- app_assoc. reflexivity.
Qed.

(** The enabled cycle in which the text service rejects the request. *)
Lemma advice_rejected_cycle (str_float format_2f : float -> string) :
  cycle source_config str_float format_2f advice_rejected_world initial_state =
  (Ok tt,
   State [65%float]
     ([HttpGet (SENSOR_STATUS_ENDPOINT source_config); ResponseJson;
       ResponseClose; DhtMeasure;
       LcdClear;
       LcdPutstr ("Humidity: " ++ format_2f 65%float ++ "%" ++ newline ++ "Optimal");
       Sleep 3;
       HttpPost (gemini_url source_config)
         (gemini_payload (advice_prompt str_float 65%float "Optimal")) json_headers;
       ResponseJson; ResponseClose;
       Print "[ERROR] Sensor error: list index out of range";
       LcdClear; LcdPutstr "Sensor error"; Sleep 2] ++ idle_events)).
Proof. reflexivity. Qed.

(** C6. In an enabled cycle with a reading of 65, the text service rejects
    the request. The IndexError of the advisory step is not handled there:
    it reaches the handler of [process_humidity], which reports a sensor
    error, and [store_humidity_data] is never called: no POST goes to the data
    endpoint, although the reading and the average were available. The cycle
    itself returns normally. *)
Theorem advice_failure_prevents_upload (str_float format_2f : float -> string) :
  let run :=
    cycle source_config str_float format_2f advice_rejected_world initial_state in
  fst run = Ok tt /\
  humidity_readings (snd run) = [65%float] /\
  posts_to (DATA_INSERT_ENDPOINT source_config) (output (snd run)) = [] /\
  displayed (output (snd run)) =
  [("Humidity: " ++ format_2f 65%float ++ "%" ++ newline ++ "Optimal")%string;
   "Sensor error"%string; "Sensor working..."%string] /\
  error_entries (output (snd run)) =
  [Print "[ERROR] Sensor error: list index out of range"].
Proof.
  cbv zeta. rewrite advice_rejected_cycle.
  repeat split; reflexivity.
Qed.

(** By contrast a transport failure of the advisory call is handled where
    it happens, and the upload is attempted. *)
Lemma advice_transport_failure_keeps_upload (str_float format_2f : float -> string) :
  let run :=
    cycle source_config str_float format_2f posts_down_world initial_state in
  fst run = Ok tt /\
  posts_to (DATA_INSERT_ENDPOINT source_config) (output (snd run)) =
  [store_params 65 sample_time (average [65%float])] /\
  displayed (output (snd run)) =
  [("Humidity: " ++ format_2f 65%float ++ "%" ++ newline ++ "Optimal")%string;
   "Failed to get advice"%string; "Sensor working..."%string].
Proof. cbv zeta. repeat split; reflexivity. Qed.

(** *** The timestamp *)




(** A number below [10 ^ k] has at most [k] digits. *)
Lemma dec_digits_length fuel : forall k n acc,
  (1 <= k)%nat -> (n < 10 ^ k)%nat ->
  (String.length (dec_digits fuel n acc) <= k + String.length acc)%nat.
Proof.
  induction fuel as [ | fuel IH ]; intros k n acc Hk Hn; cbn [dec_digits].
  - lia.
  - destruct (n / 10 =? 0)%nat eqn:Hq.
    + cbn [String.length]. lia.
    + apply Nat.eqb_neq in Hq.
      destruct k as [ | [ | k ] ]; [ lia | | ].
      * exfalso. apply Hq. apply Nat.div_small. simpl in Hn. lia.
      * specialize (IH (S k) (n / 10)%nat (String (digit_char (n mod 10)) acc)).
        cbn [String.length] in IH.
        assert (Hdiv : (n / 10 < 10 ^ S k)%nat).
        { apply Nat.Div0.div_lt_upper_bound.
          change (10 ^ S (S k))%nat with (10 * 10 ^ S k)%nat in Hn. exact Hn. }
        specialize (IH ltac:(lia) Hdiv). lia.
Qed.



Lemma zeros_length k : String.length (zeros k) = k.
Proof. induction k as [ | k IH ]; cbn [zeros String.length]; congruence. Qed.

Lemma append_length s1 s2 :
  String.length (s1 ++ s2) = (String.length s1 + String.length s2)%nat.
Proof.
  induction s1 as [ | c s1 IH ]; cbn [String.append String.length];
    [ reflexivity | rewrite IH; reflexivity ].
Qed.






Lemma string_app_assoc (a b c : string) :
  ((a ++ b) ++ c = a ++ (b ++ c))%string.
Proof.
  induction a as [ | x a IH ]; cbn [String.append];
    [ reflexivity | rewrite IH; reflexivity ].
Qed.


Lemma nat_of_digits_from_app s : forall t acc,
  nat_of_digits_from acc (s ++ t) =
  nat_of_digits_from (nat_of_digits_from acc s) t.
Proof.
  induction s as [ | c s IH ]; intros t acc; cbn [String.append nat_of_digits_from].
  - reflexivity.
  - apply IH.
Qed.

Lemma digit_value_digit_char d : (d < 10)%nat -> digit_value (digit_char d) = d.
Proof.
  intro H.
  do 10 (destruct d as [ | d ]; [ reflexivity | ]).
  lia.
Qed.

Lemma dec_digits_acc fuel : forall n acc,
  dec_digits fuel n acc = (dec_digits fuel n "" ++ acc)%string.
Proof.
  induction fuel as [ | fuel IH ]; intros n acc; cbn [dec_digits].
  - reflexivity.
  - destruct (n / 10 =? 0)%nat.
    + reflexivity.
    + rewrite (IH (n / 10)%nat (String (digit_char (n mod 10)) acc)).
      rewrite (IH (n / 10)%nat (String (digit_char (n mod 10)) "")).
      rewrite string_app_assoc. reflexivity.
Qed.

Lemma nat_of_digits_dec_digits fuel : forall n,
  (n < fuel)%nat -> nat_of_digits (dec_digits fuel n "") = n.
Proof.
  induction fuel as [ | fuel IH ]; intros n Hn; [ lia | ].
  cbn [dec_digits]. destruct (n / 10 =? 0)%nat eqn:Hq.
  - apply Nat.eqb_eq in Hq.
    assert (Hsmall : (n < 10)%nat).
    { apply Nat.div_small_iff in Hq; [ exact Hq | discriminate ]. }
    unfold nat_of_digits. cbn [nat_of_digits_from].
    rewrite digit_value_digit_char by (apply Nat.mod_upper_bound; lia).
    rewrite Nat.mod_small by exact Hsmall. lia.
  - apply Nat.eqb_neq in Hq.
    assert (Hpos : (0 < n)%nat).
    { destruct n; [ exfalso; apply Hq; reflexivity | lia ]. }
    rewrite dec_digits_acc. unfold nat_of_digits.
    rewrite nat_of_digits_from_app. cbn [nat_of_digits_from].
    fold (nat_of_digits (dec_digits fuel (n / 10) "")).
    rewrite IH.
    + rewrite digit_value_digit_char by (apply Nat.mod_upper_bound; lia).
      symmetry. apply Nat.div_mod_eq.
    + pose proof (Nat.div_lt n 10 Hpos ltac:(lia)). lia.
Qed.

Lemma nat_of_digits_zeros k : nat_of_digits_from 0 (zeros k) = 0%nat.
Proof. induction k as [ | k IH ]; [ reflexivity | exact IH ]. Qed.

(** Reading back what [format_0d] printed gives the number, whatever the
    width. *)
Lemma nat_of_digits_format_0d width n : nat_of_digits (format_0d width n) = n.
Proof.
  unfold format_0d, nat_of_digits, str_of_nat.
  rewrite nat_of_digits_from_app, nat_of_digits_zeros.
  apply nat_of_digits_dec_digits. lia.
Qed.

Lemma format_0d_length width n :
  (1 <= width)%nat -> (n < 10 ^ width)%nat ->
  String.length (format_0d width n) = width.
Proof.
  intros Hw Hn. unfold format_0d, str_of_nat.
  pose proof (dec_digits_length (S n) width n "" Hw Hn) as Hlen.
  cbn [String.length] in Hlen.
  rewrite append_length, zeros_length. lia.
Qed.

Lemma string_of_length_2 s :
  String.length s = 2%nat ->
  exists a b, s = String a (String b EmptyString).
Proof.
  destruct s as [ | a [ | b [ | c s ] ] ]; cbn [String.length]; intro H;
    try discriminate H.
  exists a, b. reflexivity.
Qed.

Lemma string_of_length_4 s :
  String.length s = 4%nat ->
  exists a b c d, s = String a (String b (String c (String d EmptyString))).
Proof.
  destruct s as [ | a [ | b [ | c [ | d [ | e s ] ] ] ] ]; cbn [String.length];
    intro H; try discriminate H.
  exists a, b, c, d. reflexivity.
Qed.

(** For a local time in range, reading the timestamp back gives the time. *)
Lemma current_time_reads_back u :
  valid_time u ->
  parse_time (current_time u) = u /\ String.length (current_time u) = 19%nat.
Proof.
  intros (Hy & Hmo & Hd & Hh & Hmi & Hs).
  pose proof (nat_of_digits_format_0d 4 (year u)) as Vy.
  pose proof (nat_of_digits_format_0d 2 (month u)) as Vmo.
  pose proof (nat_of_digits_format_0d 2 (mday u)) as Vd.
  pose proof (nat_of_digits_format_0d 2 (hour u)) as Vh.
  pose proof (nat_of_digits_format_0d 2 (minute u)) as Vmi.
  pose proof (nat_of_digits_format_0d 2 (second u)) as Vs.
  destruct (string_of_length_4 _ (format_0d_length 4 (year u) ltac:(lia) Hy))
    as (y1 & y2 & y3 & y4 & Ey).
  destruct (string_of_length_2 _
              (format_0d_length 2 (month u) ltac:(lia) ltac:(simpl; lia)))
    as (mo1 & mo2 & Emo).
  destruct (string_of_length_2 _
              (format_0d_length 2 (mday u) ltac:(lia) ltac:(simpl; lia)))
    as (d1 & d2 & Ed).
  destruct (string_of_length_2 _
              (format_0d_length 2 (hour u) ltac:(lia) ltac:(simpl; lia)))
    as (h1 & h2 & Eh).
  destruct (string_of_length_2 _
              (format_0d_length 2 (minute u) ltac:(lia) ltac:(simpl; lia)))
    as (mi1 & mi2 & Emi).
  destruct (string_of_length_2 _
              (format_0d_length 2 (second u) ltac:(lia) ltac:(simpl; lia)))
    as (s1 & s2 & Es).
  unfold current_time, parse_time.
  rewrite Ey, Emo, Ed, Eh, Emi, Es in *.
  cbn [String.append substring String.length].
  rewrite Vy, Vmo, Vd, Vh, Vmi, Vs.
  split; [ destruct u; reflexivity | reflexivity ].
Qed.

(** *** A cycle with a reading *)

(** [process_humidity] on a reading, up to the advisory step. *)
Lemma process_humidity_until_advice (CONFIG : config)
  (str_float format_2f : float -> string) w s v :
  dht w = Measured (Some v) ->
  let history := humidity_readings s ++ [v] in
  let status := calculate_humidity_status CONFIG v in
  let shown := ("Humidity: " ++ format_2f v ++ "%" ++ newline ++ status)%string in
  process_humidity CONFIG str_float format_2f w s =
  try_except
    (generate_vegetable_suggestions CONFIG str_float v status ;;
     store_humidity_data CONFIG v (average history))
    sensor_error_handler w
    (State history
       (output s ++ [DhtMeasure; LcdClear; LcdPutstr shown; Sleep 3])).
Proof.
  intros H history status shown.
  rewrite (process_humidity_reading CONFIG str_float format_2f w s v H).
  unfold after_reading. fold history. fold status. fold shown.
  cbv [try_except bind update_lcd emit sleep humidity_readings output].
  rewrite <- !app_assoc. reflexivity.
Qed.




(** The cycle in which everything works, from the start of the program's
    history: what is shown and what is uploaded. *)
Lemma healthy_cycle :
  let run :=
    cycle source_config sample_str_float sample_format_2f healthy_world
      initial_state in
  fst run = Ok tt /\
  humidity_readings (snd run) = [65%float] /\
  displayed (output (snd run)) =
  [("Humidity: 65.00%" ++ newline ++ "Optimal")%string;
   ("Optimal" ++ newline ++ "Keep the produce dry and ventilated...")%string;
   "Sensor working..."%string] /\
  posts_to (DATA_INSERT_ENDPOINT source_config) (output (snd run)) =
  [JObj [("humidity"%string, JNum 65);
         ("datetime"%string, JStr "2024-03-07 09:05:00");
         ("avg_humidity"%string, JNum (average [65%float]))]].
Proof. vm_compute. repeat split; reflexivity. Qed.

(** *** The history only grows *)

(** C10. No operation removes, reorders or changes a recorded value: the
    remote calls, the status check, the display, the advisory step, the
    upload and the average leave the history as it is; a cycle leaves it as
    it is or appends one value; over any number of cycles the old history
    stays a prefix of the new one. A value that was read is in the history
    at the end of the cycle whatever happens afterwards, so the history can
    grow in a cycle that sends no upload, as it does when the text service
    rejects the request. *)
Theorem history_is_append_only (CONFIG : config)
  (str_float format_2f : float -> string) :
  (forall url params method, keeps_readings (request_endpoint url params method)) /\
  keeps_readings (check_sensor_status CONFIG) /\
  (forall message delay, keeps_readings (update_lcd message delay)) /\
  keeps_readings calculate_average_humidity /\
  (forall humidity status,
     keeps_readings (generate_vegetable_suggestions CONFIG str_float humidity status)) /\
  (forall humidity avg, keeps_readings (store_humidity_data CONFIG humidity avg)) /\
  (forall w s,
     let s' := snd (cycle CONFIG str_float format_2f w s) in
     humidity_readings s' = humidity_readings s \/
     exists v, humidity_readings s' = humidity_readings s ++ [v]) /\
  (forall worlds s,
     exists added,
       humidity_readings
         (snd (monitoring_loop CONFIG str_float format_2f worlds s)) =
       humidity_readings s ++ added) /\
  (forall w s v,
     dht w = Measured (Some v) ->
     humidity_readings (snd (process_humidity CONFIG str_float format_2f w s)) =
     humidity_readings s ++ [v]) /\
  (let run :=
     cycle source_config str_float format_2f advice_rejected_world initial_state in
   humidity_readings (snd run) = [65%float] /\
   posts_to (DATA_INSERT_ENDPOINT source_config) (output (snd run)) = []).
Proof.
  split; [ exact keeps_request_endpoint | ].
  split; [ apply keeps_check_sensor_status | ].
  split; [ exact keeps_update_lcd | ].
  split; [ exact keeps_calculate_average_humidity | ].
  split; [ apply keeps_generate_vegetable_suggestions | ].
  split; [ apply keeps_store_humidity_data | ].
  split; [ apply cycle_history | ].
  split; [ apply monitoring_loop_history | ].
  split; [ apply process_humidity_appends | ].
  cbv zeta. rewrite advice_rejected_cycle. split; reflexivity.
Qed.

Lemma history_is_append_only_witness :
  dht posts_down_world = Measured (Some 65%float) /\
  humidity_readings
    (snd (process_humidity source_config sample_str_float sample_format_2f
            posts_down_world (State [50%float; 60%float] []))) =
  [50%float; 60%float; 65%float].
Proof.
  split; [ reflexivity | ].
  exact (proj1 (proj2 (proj2 (proj2 (proj2 (proj2 (proj2 (proj2 (proj2
    (history_is_append_only source_config sample_str_float sample_format_2f)))))))))
    posts_down_world (State [50%float; 60%float] []) 65%float eq_refl).
Defined.

(** ** Further properties *)

(** *** The trace only grows *)

Lemma appends_ret {A} (a : A) : appends_output (ret a).
Proof. intros w s. exists []. symmetry. apply app_nil_r. Qed.

Lemma appends_raise {A} (e : exn) : appends_output (@raise A e).
Proof. intros w s. exists []. symmetry. apply app_nil_r. Qed.

Lemma appends_ask : appends_output ask.
Proof. intros w s. exists []. symmetry. apply app_nil_r. Qed.

Lemma appends_lift {A} (r : result A) : appends_output (lift r).
Proof. intros w s. exists []. symmetry. apply app_nil_r. Qed.

Lemma appends_emit (e : event) : appends_output (emit e).
Proof. intros w s. exists [e]. reflexivity. Qed.

Lemma appends_bind {A B} (m : M A) (k : A -> M B) :
  appends_output m -> (forall a, appends_output (k a)) ->
  appends_output (bind m k).
Proof.
  intros Hm Hk w s. unfold bind.
  destruct (Hm w s) as [evs1 H1]. destruct (m w s) as [[a | e] s1]; simpl in H1.
  - destruct (Hk a w s1) as [evs2 H2]. exists (evs1 ++ evs2).
    rewrite H2, H1. symmetry. apply app_assoc.
  - exists evs1. exact H1.
Qed.

Lemma appends_try_except {A} (body : M A) (handler : exn -> M A) :
  appends_output body -> (forall e, appends_output (handler e)) ->
  appends_output (try_except body handler).
Proof.
  intros Hb Hh w s. unfold try_except.
  destruct (Hb w s) as [evs1 H1]. destruct (body w s) as [[a | e] s1]; simpl in H1.
  - exists evs1. exact H1.
  - destruct (Hh e w s1) as [evs2 H2]. exists (evs1 ++ evs2).
    rewrite H2, H1. symmetry. apply app_assoc.
Qed.

Create HintDb trace.
#[local] Hint Resolve appends_ret appends_raise appends_ask appends_lift
  appends_emit : trace.

Ltac appends_step :=
  match goal with
  | |- appends_output (bind _ _) => apply appends_bind; [ | intro ]
  | |- appends_output (try_except _ _) => apply appends_try_except; [ | intro ]
  | |- appends_output (if ?b then _ else _) => destruct b
  | |- appends_output (match ?x with _ => _ end) => destruct x
  | |- appends_output _ => solve [ auto with trace ]
  end.

Ltac appends := repeat appends_step.

Lemma appends_update_lcd message delay : appends_output (update_lcd message delay).
Proof. unfold update_lcd, sleep. appends. Qed.

Lemma appends_log message level : appends_output (log message level).
Proof. unfold log, print. appends. Qed.

Lemma appends_request_endpoint url params method :
  appends_output (request_endpoint url params method).
Proof.
  unfold request_endpoint, urequests_get, urequests_post, response_json.
  appends; apply appends_log.
Qed.

Lemma appends_append_reading v : appends_output (append_reading v).
Proof. intros w s. exists []. symmetry. apply app_nil_r. Qed.

Lemma appends_calculate_average_humidity : appends_output calculate_average_humidity.
Proof. intros w s. exists []. symmetry. apply app_nil_r. Qed.

Lemma appends_process_humidity CONFIG str_float format_2f :
  appends_output (process_humidity CONFIG str_float format_2f).
Proof.
  unfold process_humidity, generate_vegetable_suggestions, store_humidity_data,
    request_gemini_response, dht_measure, dht_humidity, urequests_post,
    response_json.
  appends;
    first [ apply appends_update_lcd | apply appends_log
          | apply appends_request_endpoint | apply appends_append_reading
          | apply appends_calculate_average_humidity ].
Qed.

(** *** Connecting *)

Lemma sleeps_app evs1 evs2 : sleeps (evs1 ++ evs2) = sleeps evs1 ++ sleeps evs2.
Proof.
  induction evs1 as [ | ev evs1 IH ]; [ reflexivity | ].
  destruct ev; cbn [sleeps app]; rewrite IH; reflexivity.
Qed.

Lemma displayed_app evs1 evs2 :
  displayed (evs1 ++ evs2) = displayed evs1 ++ displayed evs2.
Proof.
  induction evs1 as [ | ev evs1 IH ]; [ reflexivity | ].
  destruct ev; cbn [displayed app]; rewrite IH; reflexivity.
Qed.

(** The polling loop of [connect_wifi]: it sleeps one second after each
    poll that finds no link and stops at the first poll that finds one. *)
Lemma wait_for_link_polls link ip attempts : forall k w s,
  exists n evs,
    wait_for_link link ip k attempts w s =
    (Ok (existsb link (seq k attempts)),
     State (humidity_readings s) (output s ++ evs)) /\
    sleeps evs = repeat 1%nat n /\
    (n <= attempts)%nat /\
    (forall j, (j < n)%nat -> link (k + j)%nat = false) /\
    (existsb link (seq k attempts) = true -> link (k + n)%nat = true) /\
    (existsb link (seq k attempts) = false -> n = attempts) /\
    displayed evs = [] /\ filter is_request evs = [] /\
    filter is_measure evs = [].
Proof.
  induction attempts as [ | attempts IH ]; intros k w s.
  - exists 0%nat, [Print "WiFi Connect Failed"]. cbn [wait_for_link seq existsb].
    split; [ reflexivity | ].
    repeat split; try reflexivity; try lia; discriminate.
  - cbn [wait_for_link seq existsb]. destruct (link k) eqn:Hk.
    + exists 0%nat, [Print "WiFi Connected!"; Print ("IP Address: " ++ ip)].
      split; [ run; rewrite <- app_assoc; reflexivity | ].
      repeat split; try reflexivity; try lia; try discriminate.
      intros _. rewrite Nat.add_0_r. exact Hk.
    + destruct (IH (S k) w (State (humidity_readings s) (output s ++ [Sleep 1])))
        as (n & evs & Hrun & Hsl & Hn & Hbefore & Hat & Hnone & Hd & Hr & Hm).
      exists (S n), (Sleep 1 :: evs).
      split.
      { unfold bind at 1. unfold sleep, emit at 1. rewrite Hrun.
        cbn [humidity_readings output orb]. rewrite <- app_assoc. reflexivity. }
      split; [ cbn [sleeps repeat]; rewrite Hsl; reflexivity | ].
      split; [ lia | ].
      split.
      { intros j Hj. destruct j as [ | j ].
        - rewrite Nat.add_0_r. exact Hk.
        - replace (k + S j)%nat with (S k + j)%nat by lia. apply Hbefore. lia. }
      split.
      { intro Hex. replace (k + S n)%nat with (S k + n)%nat by lia.
        apply Hat. exact Hex. }
      split; [ intro Hex; rewrite (Hnone Hex); reflexivity | ].
      repeat split; assumption.
Qed.

Lemma connect_wifi_run link ip ssid password w s :
  exists n evs,
    connect_wifi link ip ssid password w s =
    (Ok (existsb link (seq 0 11)),
     State (humidity_readings s) (output s ++ evs)) /\
    sleeps evs = repeat 1%nat n /\
    (n <= 10)%nat /\
    (existsb link (seq 0 11) = false -> n = 10%nat) /\
    (link 0%nat = true -> n = 0%nat /\ ~ In (WlanConnect ssid password) evs) /\
    (link 0%nat = false ->
     In (WlanConnect ssid password) evs /\
     (forall j, (j < n)%nat -> link (1 + j)%nat = false) /\
     (existsb link (seq 0 11) = true -> link (1 + n)%nat = true)) /\
    displayed evs = [] /\ filter is_request evs = [] /\
    filter is_measure evs = [].
Proof.
  unfold connect_wifi. cbn [seq existsb]. destruct (link 0%nat) eqn:H0.
  - exists 0%nat, [WlanActive; Print "Already connected."].
    split; [ run; rewrite <- app_assoc; reflexivity | ].
    split; [ reflexivity | ].
    split; [ lia | ].
    split; [ discriminate | ].
    split.
    { intros _. split; [ reflexivity | ].
      intros [Hin | [Hin | []]]; discriminate Hin. }
    split; [ discriminate | ].
    repeat split; reflexivity.
  - destruct (wait_for_link_polls link ip 10 1 w
                (State (humidity_readings s)
                   (((output s ++ [WlanActive]) ++
                     [Print "Connecting to WiFi..."]) ++
                    [WlanConnect ssid password])))
      as (n & evs & Hrun & Hsl & Hn & Hbefore & Hat & Hnone & Hd & Hr & Hm).
    cbn [humidity_readings output] in Hrun.
    exists n, ([WlanActive; Print "Connecting to WiFi...";
                WlanConnect ssid password] ++ evs).
    split.
    { cbn [negb]. cbv [bind emit print]. cbn [humidity_readings output].
      rewrite Hrun. rewrite <- !app_assoc. reflexivity. }
    split; [ rewrite sleeps_app; exact Hsl | ].
    split; [ exact Hn | ].
    split; [ exact Hnone | ].
    split; [ discriminate | ].
    split.
    { intros _. split; [ right; right; left; reflexivity | ].
      split; [ exact Hbefore | exact Hat ]. }
    split; [ rewrite displayed_app, Hd; reflexivity | ].
    split; [ rewrite filter_app, Hr; reflexivity | ].
    rewrite filter_app, Hm. reflexivity.
Qed.

(** X1. [connect_wifi] returns True exactly when one of the polls 0 to 10
    finds the link. When the link is already there (poll 0) it neither calls
    [wlan.connect] nor sleeps. Otherwise it calls [wlan.connect] and sleeps
    one second after each poll of the loop that finds no link, and stops at
    the first that finds one: with [n] the number of seconds slept, the polls
    1 to [n] found no link, and poll [n + 1] found it if the answer is True;
    [n] is ten when it gives up. It never raises, writes nothing to the
    display and sends no request. *)
Theorem connect_wifi_polls link ip ssid password w s :
  exists n evs,
    connect_wifi link ip ssid password w s =
    (Ok (existsb link (seq 0 11)),
     State (humidity_readings s) (output s ++ evs)) /\
    sleeps evs = repeat 1%nat n /\
    (n <= 10)%nat /\
    (existsb link (seq 0 11) = false -> n = 10%nat) /\
    (link 0%nat = true -> n = 0%nat /\ ~ In (WlanConnect ssid password) evs) /\
    (link 0%nat = false ->
     In (WlanConnect ssid password) evs /\
     (forall j, (j < n)%nat -> link (1 + j)%nat = false) /\
     (existsb link (seq 0 11) = true -> link (1 + n)%nat = true)) /\
    displayed evs = [] /\ filter is_request evs = [] /\
    filter is_measure evs = [].
Proof. apply connect_wifi_run. Qed.

(** *** Start-up and the loop *)

Section StartUp.

Variable CONFIG : config.
Variables str_float format_2f : float -> string.

(** The start of [main], up to the answer of [connect_wifi]. *)
Lemma main_start link ip boot s :
  exists evs,
    (update_lcd ("Veg Sanitization" ++ newline ++ "Initializing...") 2 ;;
     connect_wifi link ip (WIFI_SSID CONFIG) (WIFI_PASSWORD CONFIG)) boot s =
    (Ok (existsb link (seq 0 11)),
     State (humidity_readings s) (output s ++ evs)) /\
    displayed evs = [("Veg Sanitization" ++ newline ++ "Initializing...")%string] /\
    filter is_request evs = [] /\ filter is_measure evs = [] /\
    (existsb link (seq 0 11) = false -> sleeps evs = 2%nat :: repeat 1%nat 10).
Proof.
  destruct (connect_wifi_run link ip (WIFI_SSID CONFIG) (WIFI_PASSWORD CONFIG) boot
              (State (humidity_readings s)
                 (((output s ++ [LcdClear]) ++
                   [LcdPutstr ("Veg Sanitization" ++ newline ++ "Initializing...")]) ++
                  [Sleep 2])))
    as (n & evs & Hrun & Hsl & _ & Hnone & _ & _ & Hd & Hr & Hm).
  cbn [humidity_readings output] in Hrun.
  exists ([LcdClear;
           LcdPutstr ("Veg Sanitization" ++ newline ++ "Initializing...");
           Sleep 2] ++ evs).
  split.
  { unfold bind at 1. cbv [update_lcd bind emit sleep].
    cbn [humidity_readings output]. rewrite Hrun. rewrite <- !app_assoc.
    reflexivity. }
  split; [ rewrite displayed_app, Hd; reflexivity | ].
  split; [ rewrite filter_app, Hr; reflexivity | ].
  split; [ rewrite filter_app, Hm; reflexivity | ].
  intro Hex. rewrite sleeps_app, Hsl, (Hnone Hex). reflexivity.
Qed.

(** X2. When none of the polls 0 to 10 finds the link, [main] shows the
    banner and then "WiFi Fail!", and returns without entering the loop:
    whatever the worlds of the cycles would be, no request is sent, the
    sensor is not read and the history is untouched. It has slept the two
    seconds of the banner, the ten of the polls and the two of the failure
    message. *)
Theorem main_halts_when_link_fails link ip boot worlds s :
  existsb link (seq 0 11) = false ->
  exists evs,
    main CONFIG str_float format_2f link ip boot worlds s =
    (Halted, State (humidity_readings s) (output s ++ evs)) /\
    displayed evs =
    [("Veg Sanitization" ++ newline ++ "Initializing...")%string;
     ("WiFi Fail!" ++ newline ++ "Check config")%string] /\
    filter is_request evs = [] /\ filter is_measure evs = [] /\
    sleeps evs = 2%nat :: repeat 1%nat 10 ++ [2%nat].
Proof.
  intro Hex.
  destruct (main_start link ip boot s) as (evs & Hrun & Hd & Hr & Hm & Hsl).
  rewrite Hex in Hrun.
  exists (evs ++ [LcdClear; LcdPutstr ("WiFi Fail!" ++ newline ++ "Check config");
                  Sleep 2]).
  split.
  { unfold main. rewrite Hrun. cbv [update_lcd bind emit sleep].
    cbn [humidity_readings output]. rewrite <- !app_assoc. reflexivity. }
  split; [ rewrite displayed_app, Hd; reflexivity | ].
  split; [ rewrite filter_app, Hr; reflexivity | ].
  split; [ rewrite filter_app, Hm; reflexivity | ].
  rewrite sleeps_app, (Hsl Hex). reflexivity.
Qed.

(** X3. When one of the polls 0 to 10 finds the link, [main] enters the
    loop, and its outcome is the loop's: start-up has shown the banner only,
    sent no request, read no sensor and left the history as it was. *)
Theorem main_runs_loop_when_linked link ip boot worlds s :
  existsb link (seq 0 11) = true ->
  exists evs,
    main CONFIG str_float format_2f link ip boot worlds s =
    (Looping
       (fst (monitoring_loop CONFIG str_float format_2f worlds
               (State (humidity_readings s) (output s ++ evs)))),
     snd (monitoring_loop CONFIG str_float format_2f worlds
            (State (humidity_readings s) (output s ++ evs)))) /\
    displayed evs = [("Veg Sanitization" ++ newline ++ "Initializing...")%string] /\
    filter is_request evs = [] /\ filter is_measure evs = [].
Proof.
  intro Hex.
  destruct (main_start link ip boot s) as (evs & Hrun & Hd & Hr & Hm & _).
  rewrite Hex in Hrun. exists evs.
  split; [ | repeat split; assumption ].
  unfold main. rewrite Hrun.
  destruct (monitoring_loop CONFIG str_float format_2f worlds
              (State (humidity_readings s) (output s ++ evs))) as [r s2].
  reflexivity.
Qed.

End StartUp.

Lemma main_halts_when_link_fails_witness :
  existsb (fun _ => false) (seq 0 11) = false /\
  exists evs,
    main source_config sample_str_float sample_format_2f (fun _ => false)
      "0.0.0.0" healthy_world [healthy_world] initial_state =
    (Halted, State [] ([] ++ evs)) /\
    displayed evs =
    [("Veg Sanitization" ++ newline ++ "Initializing...")%string;
     ("WiFi Fail!" ++ newline ++ "Check config")%string] /\
    filter is_request evs = [] /\ filter is_measure evs = [] /\
    sleeps evs = 2%nat :: repeat 1%nat 10 ++ [2%nat].
Proof.
  split; [ reflexivity | ].
  exact (main_halts_when_link_fails source_config sample_str_float
           sample_format_2f (fun _ => false) "0.0.0.0" healthy_world
           [healthy_world] initial_state eq_refl).
Defined.

Lemma main_runs_loop_when_linked_witness :
  existsb (fun k => (3 <=? k)%nat) (seq 0 11) = true /\
  exists evs,
    main source_config sample_str_float sample_format_2f
      (fun k => (3 <=? k)%nat) "10.0.0.2" healthy_world [healthy_world]
      initial_state =
    (Looping
       (fst (monitoring_loop source_config sample_str_float sample_format_2f
               [healthy_world] (State [] ([] ++ evs)))),
     snd (monitoring_loop source_config sample_str_float sample_format_2f
            [healthy_world] (State [] ([] ++ evs)))) /\
    displayed evs = [("Veg Sanitization" ++ newline ++ "Initializing...")%string] /\
    filter is_request evs = [] /\ filter is_measure evs = [].
Proof.
  split; [ reflexivity | ].
  exact (main_runs_loop_when_linked source_config sample_str_float
           sample_format_2f (fun k => (3 <=? k)%nat) "10.0.0.2" healthy_world
           [healthy_world] initial_state eq_refl).
Defined.

(** *** What the status check accepts *)

Section StatusAnswers.

Variable CONFIG : config.
Variables str_float format_2f : float -> string.

(** The lookups of [check_sensor_status] on the value the call returned. *)
Lemma status_lookups r w s :
  match status_flag r with
  | Some enabled =>
      (items <- lift (py_get (py_or r (JObj [])) "items" (JObj [])) ;;
       first <- lift (py_item0 items) ;;
       status <- lift (py_get first "status" (JStr "OFF")) ;;
       ret (py_eq_str status "ON")) w s = (Ok enabled, s)
  | None =>
      exists e,
        (items <- lift (py_get (py_or r (JObj [])) "items" (JObj [])) ;;
         first <- lift (py_item0 items) ;;
         status <- lift (py_get first "status" (JStr "OFF")) ;;
         ret (py_eq_str status "ON")) w s = (Raise e, s)
  end.
Proof.
  destruct r as [ | [ | ] | q | [ | c t ] | [ | a l ] | fields ];
    try (cbn [status_flag]; eexists; reflexivity).
  - (* a number *)
    cbn [status_flag]. cbv [py_or truthy].
    destruct (negb (q =? 0)%float); eexists; reflexivity.
  - (* an object *)
    cbn [status_flag].
    assert (Hor : py_get (py_or (JObj fields) (JObj [])) "items" (JObj []) =
                  Ok (match assoc "items" fields with
                      | Some v => v
                      | None => JObj []
                      end)).
    { destruct fields; reflexivity. }
    cbv [bind lift ret]. rewrite Hor.
    destruct (assoc "items" fields) as [ items | ];
      [ | eexists; reflexivity ].
    destruct items as [ | b | q | [ | c t ] | [ | first others ] | f ];
      try (eexists; reflexivity).
    destruct first as [ | b | q | t | l | first ];
      try (eexists; reflexivity).
    cbn [py_item0 py_get]. destruct (assoc "status" first); reflexivity.
Qed.

(** The result of the status check does not depend on the state. *)
Lemma check_sensor_status_answer w s :
  match http_get w (SENSOR_STATUS_ENDPOINT CONFIG) with
  | Responded (Some r) =>
      match status_flag r with
      | Some enabled =>
          check_sensor_status CONFIG w s =
          (Ok enabled,
           State (humidity_readings s)
             (output s ++ [HttpGet (SENSOR_STATUS_ENDPOINT CONFIG);
                           ResponseJson; ResponseClose]))
      | None => is_raise (fst (check_sensor_status CONFIG w s)) = true
      end
  | _ => is_raise (fst (check_sensor_status CONFIG w s)) = true
  end.
Proof.
  destruct (http_get w (SENSOR_STATUS_ENDPOINT CONFIG)) as [ e | [ r | ] ] eqn:Hget.
  - rewrite (check_sensor_status_null CONFIG w s _
               (request_endpoint_get_transport _ JNull w s e Hget)).
    reflexivity.
  - pose proof (request_endpoint_get_body _ JNull w s r Hget) as Hreq.
    rewrite (check_sensor_status_of_response CONFIG w s r _ Hreq).
    pose proof (status_lookups r w
                  (State (humidity_readings s)
                     (output s ++ [HttpGet (SENSOR_STATUS_ENDPOINT CONFIG);
                                   ResponseJson; ResponseClose]))) as Hl.
    destruct (status_flag r) as [ enabled | ].
    + exact Hl.
    + destruct Hl as [e He]. rewrite He. reflexivity.
  - rewrite (check_sensor_status_null CONFIG w s _
               (request_endpoint_get_bad_body _ JNull w s Hget)).
    reflexivity.
Qed.

End StatusAnswers.

Section Cycles.

Variable CONFIG : config.
Variables str_float format_2f : float -> string.

(** X5. The status check returns normally exactly when the GET came back
    with a body that parses to an object whose [items] is a list starting
    with an object; its answer is then whether that object's [status] is
    the string "ON" (a missing [status], or any other value, counts as off).
    In every other case (transport error, unparseable body, None, an empty
    or missing [items], a first item that is not an object) it raises. When
    it returns it has sent one GET, read and closed the response, and left
    the history alone. *)
Theorem check_sensor_status_accepts w s :
  match http_get w (SENSOR_STATUS_ENDPOINT CONFIG) with
  | Responded (Some r) =>
      match status_flag r with
      | Some enabled =>
          check_sensor_status CONFIG w s =
          (Ok enabled,
           State (humidity_readings s)
             (output s ++ [HttpGet (SENSOR_STATUS_ENDPOINT CONFIG);
                           ResponseJson; ResponseClose]))
      | None => is_raise (fst (check_sensor_status CONFIG w s)) = true
      end
  | _ => is_raise (fst (check_sensor_status CONFIG w s)) = true
  end.
Proof. apply check_sensor_status_answer. Qed.

(** A cycle whose status check returned: it returns normally, and what it
    adds to the trace ends with the idle message and the idle pause. *)
Lemma cycle_ends_idle w s enabled s1 :
  check_sensor_status CONFIG w s = (Ok enabled, s1) ->
  exists evs s2,
    cycle CONFIG str_float format_2f w s = (Ok tt, s2) /\
    output s2 = output s1 ++ evs ++ idle_events /\
    (enabled = false ->
     evs = [LcdClear; LcdPutstr "Sensor is OFF"; Sleep 2] /\
     humidity_readings s2 = humidity_readings s).
Proof.
  intro Hchk.
  rewrite (cycle_after_check CONFIG str_float format_2f w s enabled s1 Hchk).
  pose proof (keeps_check_sensor_status CONFIG w s) as Hk.
  rewrite Hchk in Hk. cbn [snd] in Hk.
  destruct enabled.
  - pose proof (never_raises_process_humidity CONFIG str_float format_2f w s1) as Hn.
    destruct (appends_process_humidity CONFIG str_float format_2f w s1)
      as [evs Hevs].
    unfold bind at 1.
    destruct (process_humidity CONFIG str_float format_2f w s1)
      as [[[] | e] s2]; [ | discriminate Hn ].
    cbn [snd] in Hevs. exists evs. eexists.
    split; [ cbv [bind update_lcd emit sleep]; cbn [humidity_readings output];
             reflexivity | ].
    split; [ | discriminate ].
    cbn [output]. rewrite Hevs. rewrite <- !app_assoc. reflexivity.
  - exists [LcdClear; LcdPutstr "Sensor is OFF"; Sleep 2]. eexists.
    split; [ cbv [bind update_lcd emit sleep]; cbn [humidity_readings output];
             reflexivity | ].
    split; [ cbn [output]; rewrite <- !app_assoc; reflexivity | ].
    intros _. split; [ reflexivity | exact Hk ].
Qed.

(** X6. Whatever the sensor, the text service and the data endpoint do,
    a cycle whose status check returns ends normally, and the last things
    it does are to show "Sensor working..." for two seconds and to sleep two
    more. *)
Theorem cycle_always_ends_idle w s enabled s1 :
  check_sensor_status CONFIG w s = (Ok enabled, s1) ->
  exists evs s2,
    cycle CONFIG str_float format_2f w s = (Ok tt, s2) /\
    output s2 =
    output s1 ++ evs ++
    [LcdClear; LcdPutstr "Sensor working..."; Sleep 2; Sleep 2].
Proof.
  intro Hchk.
  destruct (cycle_ends_idle w s enabled s1 Hchk) as (evs & s2 & Hc & Hout & _).
  exists evs, s2. split; [ exact Hc | exact Hout ].
Qed.

(** X7. A disabled cycle (the status check answered False) reads no
    sensor, sends nothing but the status GET, leaves the history alone, and
    shows "Sensor is OFF" and then "Sensor working...". *)
Theorem disabled_cycle_is_idle w s r :
  http_get w (SENSOR_STATUS_ENDPOINT CONFIG) = Responded (Some r) ->
  status_flag r = Some false ->
  cycle CONFIG str_float format_2f w s =
  (Ok tt,
   State (humidity_readings s)
     (output s ++
      [HttpGet (SENSOR_STATUS_ENDPOINT CONFIG); ResponseJson; ResponseClose;
       LcdClear; LcdPutstr "Sensor is OFF"; Sleep 2;
       LcdClear; LcdPutstr "Sensor working..."; Sleep 2; Sleep 2])).
Proof.
  intros Hget Hflag.
  pose proof (check_sensor_status_answer CONFIG w s) as Hchk.
  rewrite Hget, Hflag in Hchk.
  rewrite (cycle_disabled CONFIG str_float format_2f w s _ Hchk).
  cbn [humidity_readings output]. unfold idle_events.
  rewrite <- !app_assoc. reflexivity.
Qed.

(** The loop body raises exactly when the answer of the status endpoint is
    not one the check accepts. *)
Lemma cycle_survives w s r enabled :
  http_get w (SENSOR_STATUS_ENDPOINT CONFIG) = Responded (Some r) ->
  status_flag r = Some enabled ->
  fst (cycle CONFIG str_float format_2f w s) = Ok tt.
Proof.
  intros Hget Hflag.
  pose proof (check_sensor_status_answer CONFIG w s) as Hchk.
  rewrite Hget, Hflag in Hchk.
  destruct (cycle_ends_idle w s enabled _ Hchk) as (evs & s2 & Hc & _).
  rewrite Hc. reflexivity.
Qed.

(** X8. As long as the status endpoint answers every cycle in a form the
    check accepts, the loop keeps running: no failure of the sensor, of the
    text service or of the data endpoint ends it. *)
Theorem loop_survives_processing_failures worlds : forall s,
  Forall (fun w =>
            exists r enabled,
              http_get w (SENSOR_STATUS_ENDPOINT CONFIG) = Responded (Some r) /\
              status_flag r = Some enabled) worlds ->
  fst (monitoring_loop CONFIG str_float format_2f worlds s) = Ok tt.
Proof.
  induction worlds as [ | w worlds IH ]; intros s Hall.
  - reflexivity.
  - inversion Hall as [ | w' worlds' (r & enabled & Hget & Hflag) Hrest ]; subst.
    pose proof (cycle_survives w s r enabled Hget Hflag) as Hc.
    cbn [monitoring_loop].
    destruct (cycle CONFIG str_float format_2f w s) as [[[] | e] s1];
      [ | discriminate Hc ].
    apply IH. exact Hrest.
Qed.

(** X9. When [dht_sensor.measure()] raises, [process_humidity] logs the
    exception at level error, shows "Sensor error" for two seconds and
    returns; nothing is recorded and no request is sent. *)
Theorem sensor_exception_is_reported w s e :
  dht w = MeasureRaises e ->
  process_humidity CONFIG str_float format_2f w s =
  (Ok tt,
   State (humidity_readings s)
     (output s ++
      [DhtMeasure; Print ("[ERROR] Sensor error: " ++ exn_str e);
       LcdClear; LcdPutstr "Sensor error"; Sleep 2])).
Proof. apply process_humidity_measure_raises. Qed.

(** X10. After any number of cycles the history has at most one value more
    per cycle: the loop records at most one reading per pass. *)
Theorem history_grows_by_one_per_cycle worlds s :
  (List.length
     (humidity_readings (snd (monitoring_loop CONFIG str_float format_2f worlds s)))
   <= List.length (humidity_readings s) + List.length worlds)%nat.
Proof.
  revert s.
  induction worlds as [ | w worlds IH ]; intro s; cbn [monitoring_loop].
  - cbn [snd List.length]. lia.
  - pose proof (cycle_history CONFIG str_float format_2f w s) as Hc.
    cbv zeta in Hc.
    destruct (cycle CONFIG str_float format_2f w s) as [[[] | e] s1];
      cbn [snd] in Hc.
    + specialize (IH s1). cbn [List.length].
      destruct Hc as [Hc | [v Hc]]; rewrite Hc in IH;
        [ | rewrite length_app in IH; cbn [List.length] in IH ]; lia.
    + cbn [snd List.length].
      destruct Hc as [Hc | [v Hc]]; rewrite Hc;
        [ | rewrite length_app; cbn [List.length] ]; lia.
Qed.

End Cycles.

Lemma cycle_always_ends_idle_witness :
  exists evs s2,
    cycle source_config sample_str_float sample_format_2f advice_rejected_world
      initial_state = (Ok tt, s2) /\
    output s2 =
    [HttpGet (SENSOR_STATUS_ENDPOINT source_config); ResponseJson; ResponseClose]
    ++ evs ++ [LcdClear; LcdPutstr "Sensor working..."; Sleep 2; Sleep 2].
Proof.
  exact (cycle_always_ends_idle source_config sample_str_float sample_format_2f
           advice_rejected_world initial_state true
           (State [] [HttpGet (SENSOR_STATUS_ENDPOINT source_config);
                      ResponseJson; ResponseClose])
           eq_refl).
Defined.

Lemma disabled_cycle_is_idle_witness :
  status_flag status_off = Some false /\
  cycle source_config sample_str_float sample_format_2f disabled_world
    (State [50%float] []) =
  (Ok tt,
   State [50%float]
     ([] ++
      [HttpGet (SENSOR_STATUS_ENDPOINT source_config); ResponseJson; ResponseClose;
       LcdClear; LcdPutstr "Sensor is OFF"; Sleep 2;
       LcdClear; LcdPutstr "Sensor working..."; Sleep 2; Sleep 2])).
Proof.
  split; [ reflexivity | ].
  exact (disabled_cycle_is_idle source_config sample_str_float sample_format_2f
           disabled_world (State [50%float] []) status_off eq_refl eq_refl).
Defined.

Lemma loop_survives_processing_failures_witness :
  fst (monitoring_loop source_config sample_str_float sample_format_2f
         [advice_rejected_world; posts_down_world; null_reading_world;
          disabled_world] initial_state) = Ok tt.
Proof.
  apply (loop_survives_processing_failures source_config sample_str_float
           sample_format_2f).
  repeat (apply Forall_cons;
          [ eexists; eexists; split; reflexivity | ]).
  apply Forall_nil.
Defined.

Lemma sensor_exception_is_reported_witness :
  process_humidity source_config sample_str_float sample_format_2f
    sensor_down_world (State [50%float] []) =
  (Ok tt,
   State [50%float]
     ([] ++
      [DhtMeasure; Print "[ERROR] Sensor error: ETIMEDOUT";
       LcdClear; LcdPutstr "Sensor error"; Sleep 2])).
Proof.
  exact (sensor_exception_is_reported source_config sample_str_float
           sample_format_2f sensor_down_world (State [50%float] []) timed_out
           eq_refl).
Defined.

(** *** Splitting into words *)









(** *** What the advisory step does with an answer *)

Section AdvisoryOutcomes.

Variable CONFIG : config.
Variables str_float format_2f : float -> string.

(** The lookups of [generate_vegetable_suggestions] on a truthy answer. *)
Lemma advice_lookups r status w s :
  truthy r = true ->
  let lookups :=
    (candidates <- lift (py_get r "candidates" (JArr [JObj []])) ;;
     candidate <- lift (py_item0 candidates) ;;
     content <- lift (py_get candidate "content" (JObj [])) ;;
     generated_text <- lift (py_get content "parts" (JArr [])) ;;
     part <- lift (py_item0 generated_text) ;;
     text <- lift (py_get part "text" (JStr "No advice available.")) ;;
     words <- lift (py_split text) ;;
     update_lcd (status ++ newline ++
                 (String.concat " " (firstn 20 words) ++ "..."))%string 3) in
  match advice_text r with
  | Some (JStr text) =>
      lookups w s =
      update_lcd (status ++ newline ++
                  (String.concat " " (firstn 20 (str_split text)) ++ "..."))%string
        3 w s
  | _ => exists e, lookups w s = (Raise e, s)
  end.
Proof.
  intros Htruthy lookups. unfold lookups. clear lookups.
  destruct r as [ | b | q | t | l | fields ];
    try (cbn [advice_text]; eexists; reflexivity).
  cbn [advice_text]. cbv [bind lift py_get].
  destruct (assoc "candidates" fields) as [ candidates | ];
    [ | eexists; reflexivity ].
  destruct candidates as [ | b | q | [ | c t ] | [ | candidate others ] | f ];
    try (eexists; reflexivity).
  destruct candidate as [ | b | q | t | l | candidate ];
    try (eexists; reflexivity).
  cbv [py_item0].
  destruct (assoc "content" candidate) as [ content | ];
    [ | eexists; reflexivity ].
  destruct content as [ | b | q | t | l | content ];
    try (eexists; reflexivity).
  destruct (assoc "parts" content) as [ parts | ];
    [ | eexists; reflexivity ].
  destruct parts as [ | b | q | [ | c t ] | [ | part parts ] | f ];
    try (eexists; reflexivity).
  destruct part as [ | b | q | t | l | part ];
    try (eexists; reflexivity).
  destruct (assoc "text" part) as [ text | ].
  - destruct text as [ | b | q | t | l | f ];
      first [ reflexivity | eexists; reflexivity ].
  - reflexivity.
Qed.

(** X11. What the advisory step does is decided by the value the call to
    the text service returned. A falsy value (None after a failed call, but
    also an empty object or list) gives "Failed to get advice" for two
    seconds. A truthy value whose first candidate's first part is an object
    with a string [text] (or no [text]: the default text is taken) gives the
    status label and the shortened text for three seconds. Every other value
    makes the step raise, with nothing shown. *)
Theorem advisory_step_outcomes humidity status w s r s1 :
  request_gemini_response CONFIG (advice_prompt str_float humidity status) w s =
  (Ok r, s1) ->
  if truthy r then
    match advice_text r with
    | Some (JStr text) =>
        generate_vegetable_suggestions CONFIG str_float humidity status w s =
        (Ok tt,
         State (humidity_readings s1)
           (output s1 ++
            [LcdClear;
             LcdPutstr (status ++ newline ++
                        (String.concat " " (firstn 20 (str_split text)) ++ "..."));
             Sleep 3]))
    | _ =>
        exists e,
          generate_vegetable_suggestions CONFIG str_float humidity status w s =
          (Raise e, s1)
    end
  else
    generate_vegetable_suggestions CONFIG str_float humidity status w s =
    (Ok tt,
     State (humidity_readings s1)
       (output s1 ++ [LcdClear; LcdPutstr "Failed to get advice"; Sleep 2])).
Proof.
  intro Hreq.
  rewrite (generate_vegetable_suggestions_of_response CONFIG str_float _ _ _ _ _ _
             Hreq).
  destruct (truthy r) eqn:Htruthy.
  - pose proof (advice_lookups r status w s1 Htruthy) as Hl. cbv zeta in Hl.
    destruct (advice_text r) as [ [ | b | q | text | l | f ] | ];
      try exact Hl.
    rewrite Hl. cbv [update_lcd bind emit sleep]. cbn [humidity_readings output].
    rewrite <- !app_assoc. reflexivity.
  - cbv [update_lcd bind emit sleep]. cbn [humidity_readings output].
    rewrite <- !app_assoc. reflexivity.
Qed.


(** X13. A transport failure of the advisory call is handled inside the
    advisory step: "Failed to get advice" is shown and the reading is still
    uploaded with the average over the extended history. *)
Theorem advice_transport_failure_still_uploads w s v e :
  dht w = Measured (Some v) ->
  http_post w (gemini_url CONFIG)
    (gemini_payload
       (advice_prompt str_float v (calculate_humidity_status CONFIG v))) =
  TransportError e ->
  exists evs,
    process_humidity CONFIG str_float format_2f w s =
    (Ok tt,
     State (humidity_readings s ++ [v])
       (output s ++
        [DhtMeasure; LcdClear;
         LcdPutstr ("Humidity: " ++ format_2f v ++ "%" ++ newline ++
                    calculate_humidity_status CONFIG v);
         Sleep 3;
         HttpPost (gemini_url CONFIG)
           (gemini_payload
              (advice_prompt str_float v (calculate_humidity_status CONFIG v)))
           json_headers;
         Print ("[ERROR] Failed to reach Gemini endpoint: " ++ exn_str e);
         LcdClear; LcdPutstr "Failed to get advice"; Sleep 2;
         HttpPost (DATA_INSERT_ENDPOINT CONFIG)
           (store_params v (localtime w) (average (humidity_readings s ++ [v])))
           json_headers] ++ evs)) /\
    filter is_request evs = [] /\ displayed evs = [].
Proof.
  intros Hd Hpost.
  rewrite (process_humidity_until_advice CONFIG str_float format_2f w s v Hd).
  cbv zeta. unfold try_except. unfold bind at 1.
  rewrite (advice_transport_failure_shows_message CONFIG str_float v _ w _ e Hpost).
  cbn [humidity_readings output].
  match goal with
  | |- context [store_humidity_data CONFIG v ?avg w ?st] =>
      destruct (http_post w (DATA_INSERT_ENDPOINT CONFIG)
                  (store_params v (localtime w) avg)) as [ e2 | body ] eqn:Hup;
      unfold store_humidity_data; unfold bind at 1; unfold ask; unfold bind at 1
  end.
  - rewrite (request_endpoint_post_transport _ _ w _ e2 Hup).
    cbn [humidity_readings output]. eexists.
    split; [ unfold ret; rewrite <- !app_assoc; cbn [app]; reflexivity | ].
    split; reflexivity.
  - rewrite (request_endpoint_post_sent _ _ w _ body Hup).
    cbn [humidity_readings output]. exists [].
    split; [ unfold ret; rewrite <- !app_assoc; cbn [app]; reflexivity | ].
    split; reflexivity.
Qed.

(** X14. [request_gemini_response] never raises. A transport failure or a
    body that does not parse gives None and exactly one error line; a body
    that parses is returned as it is (unlike the POST of [request_endpoint],
    which never reads the body) and the response is closed. In each case one
    POST was sent, to the endpoint with the key, with the prompt wrapped in
    the payload. *)
Theorem request_gemini_response_outcomes prompt w s :
  exists evs,
    output (snd (request_gemini_response CONFIG prompt w s)) =
    output s ++
    HttpPost (gemini_url CONFIG) (gemini_payload prompt)
      [("Content-Type", "application/json")%string] :: evs /\
    humidity_readings (snd (request_gemini_response CONFIG prompt w s)) =
    humidity_readings s /\
    filter is_request evs = [] /\
    match http_post w (gemini_url CONFIG) (gemini_payload prompt) with
    | TransportError e =>
        fst (request_gemini_response CONFIG prompt w s) = Ok JNull /\
        error_entries evs =
        [Print ("[ERROR] Failed to reach Gemini endpoint: " ++ exn_str e)]
    | Responded None =>
        fst (request_gemini_response CONFIG prompt w s) = Ok JNull /\
        error_entries evs =
        [Print "[ERROR] Failed to reach Gemini endpoint: syntax error in JSON"]
    | Responded (Some j) =>
        fst (request_gemini_response CONFIG prompt w s) = Ok j /\
        evs = [ResponseJson; ResponseClose]
    end.
Proof.
  destruct (http_post w (gemini_url CONFIG) (gemini_payload prompt))
    as [ e | [ j | ] ] eqn:H.
  - rewrite (request_gemini_response_transport CONFIG prompt w s e H).
    eexists. repeat split; reflexivity.
  - rewrite (request_gemini_response_body CONFIG prompt w s j H).
    eexists. repeat split; reflexivity.
  - rewrite (request_gemini_response_bad_body CONFIG prompt w s H).
    eexists. repeat split; reflexivity.
Qed.

End AdvisoryOutcomes.

Lemma advisory_step_outcomes_witness :
  generate_vegetable_suggestions source_config sample_str_float 65 "Optimal"
    healthy_world initial_state =
  (Ok tt,
   State []
     ([HttpPost (gemini_url source_config)
         (gemini_payload (advice_prompt sample_str_float 65 "Optimal"))
         json_headers; ResponseJson; ResponseClose] ++
      [LcdClear;
       LcdPutstr ("Optimal" ++ newline ++ "Keep the produce dry and ventilated...");
       Sleep 3])).
Proof.
  exact (advisory_step_outcomes source_config sample_str_float 65 "Optimal"
           healthy_world initial_state advice_reply
           (State []
              [HttpPost (gemini_url source_config)
                 (gemini_payload (advice_prompt sample_str_float 65 "Optimal"))
                 json_headers; ResponseJson; ResponseClose])
           eq_refl).
Defined.

Lemma advice_transport_failure_still_uploads_witness :
  dht posts_down_world = Measured (Some 65%float) /\
  exists evs,
    process_humidity source_config sample_str_float sample_format_2f
      posts_down_world initial_state =
    (Ok tt,
     State ([] ++ [65%float])
       ([] ++
        [DhtMeasure; LcdClear;
         LcdPutstr ("Humidity: " ++ sample_format_2f 65 ++ "%" ++ newline ++
                    calculate_humidity_status source_config 65);
         Sleep 3;
         HttpPost (gemini_url source_config)
           (gemini_payload
              (advice_prompt sample_str_float 65
                 (calculate_humidity_status source_config 65)))
           json_headers;
         Print ("[ERROR] Failed to reach Gemini endpoint: " ++ exn_str timed_out);
         LcdClear; LcdPutstr "Failed to get advice"; Sleep 2;
         HttpPost (DATA_INSERT_ENDPOINT source_config)
           (store_params 65 (localtime posts_down_world) (average ([] ++ [65%float])))
           json_headers] ++ evs)) /\
    filter is_request evs = [] /\ displayed evs = [].
Proof.
  split; [ reflexivity | ].
  exact (advice_transport_failure_still_uploads source_config sample_str_float
           sample_format_2f posts_down_world initial_state 65%float timed_out
           eq_refl eq_refl).
Defined.

(** *** More on the remote-call primitive *)

Lemma request_endpoint_other_method url params method w s :
  method <> "get"%string -> method <> "post"%string ->
  request_endpoint url params method w s =
  (Ok JNull,
   State (humidity_readings s)
     (output s ++
      [Print ("[ERROR] Failed to reach endpoint " ++ url ++
              ": local variable referenced before assignment")])).
Proof.
  intros Hget Hpost. unfold request_endpoint.
  apply String.eqb_neq in Hget. apply String.eqb_neq in Hpost.
  rewrite Hget, Hpost.
  cbv [try_except raise bind log print emit ret exn_str].
  cbn [humidity_readings output]. reflexivity.
Qed.

(** X15. Called with a method that is neither 'get' nor 'post',
    [request_endpoint] sends no request: reading the unassigned [response]
    raises inside the [try], so the call returns None and the only trace is
    one error line that names the URL. *)
Theorem unknown_method_sends_nothing url params method w s :
  method <> "get"%string -> method <> "post"%string ->
  exists evs line,
    request_endpoint url params method w s =
    (Ok JNull, State (humidity_readings s) (output s ++ evs)) /\
    filter is_request evs = [] /\
    evs = [Print line] /\ is_error_entry (Print line) = true /\
    mentions line url.
Proof.
  intros Hget Hpost. eexists. eexists.
  split; [ apply request_endpoint_other_method; assumption | ].
  split; [ reflexivity | ].
  split; [ reflexivity | ].
  split; [ reflexivity | apply error_line_mentions ].
Qed.

Lemma unknown_method_sends_nothing_witness :
  exists evs line,
    request_endpoint "http://host/data" JNull "put" healthy_world initial_state =
    (Ok JNull, State [] ([] ++ evs)) /\
    filter is_request evs = [] /\
    evs = [Print line] /\ is_error_entry (Print line) = true /\
    mentions line "http://host/data".
Proof.
  exact (unknown_method_sends_nothing "http://host/data" JNull "put" healthy_world
           initial_state
           ltac:(discriminate) ltac:(discriminate)).
Defined.

(** X16. [request_endpoint] closes the response only after a GET whose
    body parsed. After a POST, after a transport error and after a body that
    does not parse, [response.close()] is never called. *)
Theorem response_closed_only_after_get url params method w s :
  exists evs,
    output (snd (request_endpoint url params method w s)) = output s ++ evs /\
    (List.length (filter is_close evs) <= 1)%nat /\
    (In ResponseClose evs <->
     method = "get"%string /\ exists j, http_get w url = Responded (Some j)).
Proof.
  destruct (String.eqb method "get") eqn:Hg.
  - apply String.eqb_eq in Hg. subst method.
    destruct (http_get w url) as [ e | [ j | ] ] eqn:H.
    + rewrite (request_endpoint_get_transport url params w s e H).
      eexists. split; [ reflexivity | ]. split; [ cbn; lia | ].
      split.
      * intros [Hin | [Hin | []]]; discriminate Hin.
      * intros [_ [j Hj]]. discriminate Hj.
    + rewrite (request_endpoint_get_body url params w s j H).
      eexists. split; [ reflexivity | ]. split; [ cbn; lia | ].
      split.
      * intros _. split; [ reflexivity | exists j; reflexivity ].
      * intros _. right. right. left. reflexivity.
    + rewrite (request_endpoint_get_bad_body url params w s H).
      eexists. split; [ reflexivity | ]. split; [ cbn; lia | ].
      split.
      * intros [Hin | [Hin | [Hin | []]]]; discriminate Hin.
      * intros [_ [j Hj]]. discriminate Hj.
  - apply String.eqb_neq in Hg.
    destruct (String.eqb method "post") eqn:Hp.
    + apply String.eqb_eq in Hp. subst method.
      destruct (http_post w url params) as [ e | body ] eqn:H.
      * rewrite (request_endpoint_post_transport url params w s e H).
        eexists. split; [ reflexivity | ]. split; [ cbn; lia | ].
        split.
        -- intros [Hin | [Hin | []]]; discriminate Hin.
        -- intros [Hm _]. discriminate Hm.
      * rewrite (request_endpoint_post_sent url params w s body H).
        eexists. split; [ reflexivity | ]. split; [ cbn; lia | ].
        split.
        -- intros [Hin | []]; discriminate Hin.
        -- intros [Hm _]. discriminate Hm.
    + apply String.eqb_neq in Hp.
      rewrite (request_endpoint_other_method url params method w s Hg Hp).
      eexists. split; [ reflexivity | ]. split; [ cbn; lia | ].
      split.
      * intros [Hin | []]; discriminate Hin.
      * intros [Hm _]. contradiction.
Qed.

(** X17. [store_humidity_data] sends one POST to the data endpoint, with
    the reading, the timestamp and the average as parameters, and returns
    normally whatever comes back. It shows nothing and leaves the history
    alone. A transport failure leaves one error line; any response, whatever
    its body, leaves no trace at all. *)
Theorem upload_is_fire_and_forget (CONFIG : config) humidity avg w s :
  exists evs,
    store_humidity_data CONFIG humidity avg w s =
    (Ok tt,
     State (humidity_readings s)
       (output s ++
        HttpPost (DATA_INSERT_ENDPOINT CONFIG)
          (store_params humidity (localtime w) avg)
          [("Content-Type", "application/json")%string] :: evs)) /\
    filter is_request evs = [] /\ displayed evs = [] /\
    match http_post w (DATA_INSERT_ENDPOINT CONFIG)
            (store_params humidity (localtime w) avg) with
    | TransportError e =>
        evs = [Print ("[ERROR] Failed to reach endpoint " ++
                      DATA_INSERT_ENDPOINT CONFIG ++ ": " ++ exn_str e)]
    | Responded _ => evs = []
    end.
Proof.
  unfold store_humidity_data. unfold bind at 1. unfold ask. unfold bind.
  destruct (http_post w (DATA_INSERT_ENDPOINT CONFIG)
              (store_params humidity (localtime w) avg)) as [e | body] eqn:H.
  - rewrite (request_endpoint_post_transport _ _ w s e H).
    eexists. repeat split; reflexivity.
  - rewrite (request_endpoint_post_sent _ _ w s body H).
    exists []. repeat split; reflexivity.
Qed.

(** *** More on the classifier *)

Lemma SFlt_not_nan a b :
  SFltb a b = true -> SFeqb a a = true /\ SFeqb b b = true.
Proof.
  intro H. split; revert H; lex_order.
Qed.

Lemma float_lt_not_nan (a b : float) :
  (a <? b)%float = true -> (a =? a)%float = true /\ (b =? b)%float = true.
Proof.
  rewrite FloatAxioms.ltb_spec, !FloatAxioms.eqb_spec. apply SFlt_not_nan.
Qed.

(** X20. The classifier is monotone for every pair of thresholds, in
    order or not: a higher humidity never gets a drier label. Its answer is
    always one of the three labels. *)
Theorem classifier_is_monotone (CONFIG : config) (v1 v2 : float) :
  (v1 <=? v2)%float = true ->
  (label_rank (calculate_humidity_status CONFIG v1) <=
   label_rank (calculate_humidity_status CONFIG v2))%nat /\
  In (calculate_humidity_status CONFIG v1)
     ["Too Dry!"%string; "Optimal"%string; "Too Humid!"%string].
Proof.
  intro Hle.
  pose proof (float_le_lt_trans v1 v2 (IDEAL_HUMIDITY_LOW CONFIG) Hle) as Hdry.
  pose proof (fun H => float_lt_le_trans (IDEAL_HUMIDITY_HIGH CONFIG) v1 v2 H Hle)
    as Hhumid.
  unfold calculate_humidity_status.
  destruct (v1 <? IDEAL_HUMIDITY_LOW CONFIG)%float eqn:A1;
    destruct (v2 <? IDEAL_HUMIDITY_LOW CONFIG)%float eqn:A2;
    destruct (IDEAL_HUMIDITY_HIGH CONFIG <? v1)%float eqn:B1;
    destruct (IDEAL_HUMIDITY_HIGH CONFIG <? v2)%float eqn:B2;
    try (specialize (Hdry eq_refl); discriminate Hdry);
    try (specialize (Hhumid eq_refl); discriminate Hhumid);
    (split; [ cbv; lia | cbn [In]; tauto ]).
Qed.

Lemma classifier_is_monotone_witness :
  (55 <=? 80)%float = true /\
  (label_rank (calculate_humidity_status source_config 55) <=
   label_rank (calculate_humidity_status source_config 80))%nat.
Proof.
  split; [ reflexivity | ].
  exact (proj1 (classifier_is_monotone source_config 55 80 eq_refl)).
Defined.

(** X21. With the thresholds the wrong way round (high below low), a
    reading that is a number is never "Optimal": the dry test comes first,
    so the reading is "Too Dry!" exactly when it is below the low threshold
    and "Too Humid!" exactly when it is at or above it. *)
Theorem inverted_thresholds_never_optimal (CONFIG : config) (v : float) :
  (IDEAL_HUMIDITY_HIGH CONFIG <? IDEAL_HUMIDITY_LOW CONFIG)%float = true ->
  (v =? v)%float = true ->
  calculate_humidity_status CONFIG v <> "Optimal"%string /\
  (calculate_humidity_status CONFIG v = "Too Dry!"%string <->
   (v <? IDEAL_HUMIDITY_LOW CONFIG)%float = true) /\
  (calculate_humidity_status CONFIG v = "Too Humid!"%string <->
   (IDEAL_HUMIDITY_LOW CONFIG <=? v)%float = true).
Proof.
  intros Hinv Hv.
  destruct (float_lt_not_nan _ _ Hinv) as [_ Hlow].
  unfold calculate_humidity_status.
  destruct (v <? IDEAL_HUMIDITY_LOW CONFIG)%float eqn:A.
  - split; [ discriminate | ].
    split; [ split; reflexivity | ].
    split; [ discriminate | ].
    intro Hge. rewrite (float_le_not_gt _ _ Hge) in A. discriminate A.
  - pose proof (float_not_lt_ge _ _ Hv Hlow A) as Hge.
    rewrite (float_lt_le_trans _ _ _ Hinv Hge).
    split; [ discriminate | ].
    split; [ split; discriminate | ].
    split; [ intros _; exact Hge | reflexivity ].
Qed.

Lemma inverted_thresholds_never_optimal_witness :
  (60 <? 75)%float = true /\ (70 =? 70)%float = true /\
  calculate_humidity_status (Config "" "" "" "" "" "" 75 60) 70 <>
  "Optimal"%string /\
  calculate_humidity_status (Config "" "" "" "" "" "" 75 60) 70 =
  "Too Dry!"%string.
Proof.
  split; [ reflexivity | ]. split; [ reflexivity | ].
  destruct (inverted_thresholds_never_optimal
              (Config "" "" "" "" "" "" 75 60) 70 eq_refl eq_refl)
    as (Hnot & Hdry & _).
  split; [ exact Hnot | ].
  apply Hdry. reflexivity.
Defined.

(** *** Reading the timestamp back *)

(** X22. The timestamp of an upload can be read back: for a local time
    whose fields are in range, taking the digits at the positions of
    "YYYY-MM-DD HH:MM:SS" gives the six fields again. Two different times
    therefore never get the same timestamp. *)
Theorem timestamp_reads_back (t : time_tuple) :
  valid_time t ->
  parse_time (current_time t) = t /\
  String.length (current_time t) = 19%nat /\
  (forall t', valid_time t' -> current_time t' = current_time t -> t' = t).
Proof.
  intro Ht. destruct (current_time_reads_back t Ht) as [Hparse Hlen].
  split; [ exact Hparse | ]. split; [ exact Hlen | ].
  intros t' Ht' Heq.
  rewrite <- (proj1 (current_time_reads_back t' Ht')), Heq. exact Hparse.
Qed.

Lemma timestamp_reads_back_witness :
  valid_time sample_time /\
  parse_time (current_time sample_time) = sample_time /\
  String.length (current_time sample_time) = 19%nat.
Proof.
  assert (Ht : valid_time sample_time) by (unfold valid_time; simpl; lia).
  split; [ exact Ht | ].
  destruct (timestamp_reads_back sample_time Ht) as (Hp & Hl & _).
  split; [ exact Hp | exact Hl ].
Defined.

(** *** A pass in which everything works *)

Lemma advice_text_truthy r text : advice_text r = Some text -> truthy r = true.
Proof.
  destruct r as [ | b | q | t | l | [ | kv fields ] ]; try discriminate.
  reflexivity.
Qed.

Lemma advice_is_shown (CONFIG : config) (str_float : float -> string)
  humidity status w s r text :
  http_post w (gemini_url CONFIG)
    (gemini_payload (advice_prompt str_float humidity status)) =
  Responded (Some r) ->
  advice_text r = Some (JStr text) ->
  generate_vegetable_suggestions CONFIG str_float humidity status w s =
  (Ok tt,
   State (humidity_readings s)
     (output s ++
      [HttpPost (gemini_url CONFIG)
         (gemini_payload (advice_prompt str_float humidity status)) json_headers;
       ResponseJson; ResponseClose; LcdClear;
       LcdPutstr (status ++ newline ++
                  (String.concat " " (firstn 20 (str_split text)) ++ "..."));
       Sleep 3])).
Proof.
  intros Hpost Htext.
  pose proof (request_gemini_response_body CONFIG _ w s r Hpost) as Hreq.
  rewrite (generate_vegetable_suggestions_of_response CONFIG str_float _ _ _ _ _ _
             Hreq).
  rewrite (advice_text_truthy r _ Htext).
  pose proof (advice_lookups r status w
                (State (humidity_readings s)
                   (output s ++
                    [HttpPost (gemini_url CONFIG)
                       (gemini_payload (advice_prompt str_float humidity status))
                       json_headers; ResponseJson; ResponseClose]))
                (advice_text_truthy r _ Htext)) as Hl.
  cbv zeta in Hl. rewrite Htext in Hl. rewrite Hl.
  cbv [update_lcd bind emit sleep]. cbn [humidity_readings output].
  rewrite <- !app_assoc. reflexivity.
Qed.

(** X23. The order of a pass in which the sensor gives a value and the
    text service answers in the expected form: measure, record, show the
    reading and its label for three seconds, ask for advice, show the label
    and the shortened advice for three seconds, and only then upload the
    reading with the average over the extended history. Nothing else is
    shown and no other request is sent. *)
Theorem successful_pass_order (CONFIG : config)
  (str_float format_2f : float -> string) w s v r text :
  dht w = Measured (Some v) ->
  http_post w (gemini_url CONFIG)
    (gemini_payload
       (advice_prompt str_float v (calculate_humidity_status CONFIG v))) =
  Responded (Some r) ->
  advice_text r = Some (JStr text) ->
  exists evs,
    process_humidity CONFIG str_float format_2f w s =
    (Ok tt,
     State (humidity_readings s ++ [v])
       (output s ++
        [DhtMeasure; LcdClear;
         LcdPutstr ("Humidity: " ++ format_2f v ++ "%" ++ newline ++
                    calculate_humidity_status CONFIG v);
         Sleep 3;
         HttpPost (gemini_url CONFIG)
           (gemini_payload
              (advice_prompt str_float v (calculate_humidity_status CONFIG v)))
           json_headers;
         ResponseJson; ResponseClose; LcdClear;
         LcdPutstr (calculate_humidity_status CONFIG v ++ newline ++
                    (String.concat " " (firstn 20 (str_split text)) ++ "..."));
         Sleep 3;
         HttpPost (DATA_INSERT_ENDPOINT CONFIG)
           (store_params v (localtime w) (average (humidity_readings s ++ [v])))
           json_headers] ++ evs)) /\
    filter is_request evs = [] /\ displayed evs = [].
Proof.
  intros Hd Hpost Htext.
  rewrite (process_humidity_until_advice CONFIG str_float format_2f w s v Hd).
  cbv zeta. unfold try_except. unfold bind at 1.
  rewrite (advice_is_shown CONFIG str_float v _ w _ r text Hpost Htext).
  cbn [humidity_readings output].
  match goal with
  | |- context [store_humidity_data CONFIG v ?avg w ?st] =>
      destruct (http_post w (DATA_INSERT_ENDPOINT CONFIG)
                  (store_params v (localtime w) avg)) as [ e2 | body ] eqn:Hup;
      unfold store_humidity_data; unfold bind at 1; unfold ask; unfold bind at 1
  end.
  - rewrite (request_endpoint_post_transport _ _ w _ e2 Hup).
    cbn [humidity_readings output]. eexists.
    split; [ unfold ret; rewrite <- !app_assoc; cbn [app]; reflexivity | ].
    split; reflexivity.
  - rewrite (request_endpoint_post_sent _ _ w _ body Hup).
    cbn [humidity_readings output]. exists [].
    split; [ unfold ret; rewrite <- !app_assoc; cbn [app]; reflexivity | ].
    split; reflexivity.
Qed.

Lemma successful_pass_order_witness :
  dht healthy_world = Measured (Some 65%float) /\
  advice_text advice_reply = Some (JStr "Keep the produce dry and ventilated") /\
  exists evs,
    process_humidity source_config sample_str_float sample_format_2f
      healthy_world (State [50%float; 60%float] []) =
    (Ok tt,
     State ([50%float; 60%float] ++ [65%float])
       ([] ++
        [DhtMeasure; LcdClear;
         LcdPutstr ("Humidity: " ++ sample_format_2f 65 ++ "%" ++ newline ++
                    calculate_humidity_status source_config 65);
         Sleep 3;
         HttpPost (gemini_url source_config)
           (gemini_payload
              (advice_prompt sample_str_float 65
                 (calculate_humidity_status source_config 65)))
           json_headers;
         ResponseJson; ResponseClose; LcdClear;
         LcdPutstr (calculate_humidity_status source_config 65 ++ newline ++
                    (String.concat " "
                       (firstn 20 (str_split "Keep the produce dry and ventilated"))
                     ++ "..."));
         Sleep 3;
         HttpPost (DATA_INSERT_ENDPOINT source_config)
           (store_params 65 (localtime healthy_world)
              (average ([50%float; 60%float] ++ [65%float])))
           json_headers] ++ evs)) /\
    filter is_request evs = [] /\ displayed evs = [].
Proof.
  split; [ reflexivity | ].
  split; [ reflexivity | ].
  exact (successful_pass_order source_config sample_str_float sample_format_2f
           healthy_world (State [50%float; 60%float] []) 65%float advice_reply
           "Keep the produce dry and ventilated" eq_refl eq_refl eq_refl).
Defined.
